(** * inadyn: src/conf.c, the libConfuse front end of inadyn.conf (v2 format)

    Shallow embedding of the configuration-to-provider pipeline of
    [src/conf.c]: the option validators, [getserver], [set_provider_opts],
    [create_provider], [conf_parse_file] and the catalog iterator
    [conf_info_iterator] / [conf_info_cleanup].

    C strings are lists of characters ([cstr]); [strlen] is their length and
    [strlcpy dst src size] keeps the first [size - 1] characters.  Fixed
    buffer sizes of [ddns.h] ([sizeof] of the record fields), the plugin
    registry and the generic response table are section variables. *)

From Stdlib Require Import ZArith List Ascii String Bool Lia.
Import ListNotations.

(** ** C strings *)

Definition cstr := list ascii.

(** A C string literal. *)
Definition str (s : string) : cstr := list_ascii_of_string s.

Definition strlen (s : cstr) : nat := List.length s.

(** [strlcpy(dst, src, size)]: the characters stored in [dst]. *)
Definition strlcpy (size : nat) (src : cstr) : cstr := firstn (pred size) src.

(** [strchr(s, c)]: index of the first [c] in [s]. *)
Fixpoint strchr (c : ascii) (s : cstr) : option nat :=
  match s with
  | [] => None
  | x :: s' => if Ascii.eqb x c then Some 0 else option_map S (strchr c s')
  end.

(** [!ptr] for a string option read with [cfg_getstr]. *)
Definition is_null (o : option cstr) : bool :=
  match o with None => true | Some _ => false end.

Definition cstr_eqb (a b : cstr) : bool :=
  if list_eq_dec ascii_dec a b then true else false.

(** ** atonum *)

Definition is_digit (c : ascii) : bool :=
  (48 <=? nat_of_ascii c)%nat && (nat_of_ascii c <=? 57)%nat.

Fixpoint digits_value (acc : Z) (s : cstr) : option Z :=
  match s with
  | [] => Some acc
  | c :: s' =>
      if is_digit c
      then digits_value (10 * acc + Z.of_nat (nat_of_ascii c - 48)) s'
      else None
  end.

(** Modelled from the spec: [atonum] (inadyn's numeric-string helper, not
    under src/).  The spec: "the suffix is parsed as a non-negative integer
    port; on parse failure ..." -- a non-empty string of decimal digits
    gives its value, anything else the failure value -1. *)
Definition atonum (s : cstr) : Z :=
  match s with
  | [] => -1
  | _ => match digits_value 0 s with Some v => v | None => -1 end
  end.

(** ** Records of ddns.h *)

Definition HTTP_DEFAULT_PORT : Z := 80.

(** [ddns_name_t] *)
Record ddns_name := mk_name { name : cstr; port : Z }.

Definition name_zero : ddns_name := mk_name [] 0.

(** [ddns_system_t]: the plugin descriptor fields read by conf.c. *)
Record ddns_system := mk_system {
  sys_name : cstr;
  sys_checkip_name : cstr;
  sys_checkip_url : cstr;
  sys_server_name : cstr;
  sys_server_url : cstr
}.

(** [ddns_info_t]: the provider record.  [alias] holds the names of
    [alias[0 .. alias_count)], [server_response] the strings of
    [server_response[0 .. server_response_num)]. *)
Record ddns_info := mk_info {
  system : option ddns_system;
  checkip_name : ddns_name;
  checkip_url : cstr;
  server_name : ddns_name;
  server_url : cstr;
  wildcard : bool;
  ssl_enabled : bool;
  creds_username : cstr;
  creds_password : cstr;
  alias : list cstr;
  append_myip : bool;
  server_response : list cstr
}.

(** The record as [calloc] returns it. *)
Definition info_zero : ddns_info :=
  mk_info None name_zero [] name_zero [] false false [] [] [] false [].

(** A [provider] or [custom] section of the parsed tree (the options of
    [provider_opts] / [custom_opts]; string options unset are [None]). *)
Record section := mk_section {
  sec_title : option cstr;
  sec_username : option cstr;
  sec_password : option cstr;
  sec_hostname : list cstr;
  sec_alias : list cstr;
  sec_ssl : bool;
  sec_wildcard : bool;
  sec_append_myip : bool;
  sec_ddns_server : option cstr;
  sec_ddns_path : option cstr;
  sec_ddns_response : list cstr;
  sec_checkip_server : option cstr;
  sec_checkip_path : option cstr
}.

(** The top-level options of [opts] (defaults already applied by the
    parser). *)
Record config := mk_config {
  opt_fake_address : bool;
  opt_cache_dir : cstr;
  opt_period : Z;
  opt_iterations : Z;
  opt_forced_update : Z;
  opt_iface : option cstr;
  opt_provider : list section;
  opt_custom : list section
}.

(** [ddns_t]: the runtime settings written by [conf_parse_file]; the
    periods and the iteration count are [int] fields. *)
Record ddns_t := mk_ctx {
  normal_update_period_sec : Z;
  error_update_period_sec : Z;
  forced_update_period_sec : Z;
  total_iterations : Z;
  forced_update_fake_addr : bool
}.

(** The globals of the program touched by [conf_parse_file]: [once],
    [iface], [cache_dir] and the provider list [info_list] (head first). *)
Record globals := mk_globals {
  once : bool;
  iface : option cstr;
  cache_dir : option cstr;
  info_list : list ddns_info
}.

(** [(int)v] for the [long] [v] that [cfg_getint] returns: the conversion
    is implementation-defined (C11 6.3.1.3); GCC and Clang reduce modulo
    2^32 into [-2^31 .. 2^31). *)
Definition int_of_long (v : Z) : Z := (Z.modulo (v + 2^31) (2^32) - 2^31)%Z.

(** The outcome of running a piece of conf.c: [Ok a n] returns [a], the
    next allocation attempt of the run being the [n]-th; [Undefined] is a
    write out of bounds (undefined behaviour, nothing is known of what
    follows). *)
Inductive exec (A : Type) : Type :=
| Ok (a : A) (allocs : nat)
| Undefined.
Arguments Ok {A} a allocs.
Arguments Undefined {A}.

Section Conf.

(** [sizeof] of the fixed buffers of [ddns_info_t]. *)
Variable NAME_LEN : nat.          (* ddns_name_t.name *)
Variable ALIAS_LEN : nat.         (* info->alias[i].name *)
Variable ALIAS_NUM : nat.         (* NELEMS(info->alias) *)
Variable CHECKIP_URL_LEN : nat.   (* info->checkip_url *)
Variable SERVER_URL_LEN : nat.    (* info->server_url *)
Variable USERNAME_LEN : nat.      (* info->creds.username *)
Variable PASSWORD_LEN : nat.      (* info->creds.password *)
Variable RESPONSE_LEN : nat.      (* info->server_response[i] *)
Variable RESPONSE_NUM : nat.      (* NELEMS(info->server_response) *)

Variable DDNS_MIN_PERIOD DDNS_MAX_PERIOD DDNS_ERROR_UPDATE_PERIOD : Z.

(** The plugin registry lookup [plugin_find]. *)
Variable plugin_find : cstr -> option ddns_system.

(** The entries of the NULL-terminated [generic_responses] table. *)
Variable generic_responses : list cstr.

(** [alloc_ok n]: whether the [n]-th allocation attempt of the run
    succeeds ([cfg_init], [calloc] and [strdup] of conf.c; the allocations
    libConfuse makes while parsing are not counted). *)
Variable alloc_ok : nat -> bool.

(** ** Validators *)

(** [cfg_opt_setnstr(opt, value, index)]: overwrite an existing value, or
    add one at the end when [index] is past the last. *)
Definition cfg_opt_setnstr (vals : list cstr) (v : cstr) (i : nat) : list cstr :=
  if (i <? List.length vals)%nat
  then firstn i vals ++ v :: skipn (S i) vals
  else vals ++ [v].

(** The loop [for (i = 0; i < cfg_opt_size(alias); i++) ...]. *)
Fixpoint copy_alias (hostname : list cstr) (i : nat) (al : list cstr) : list cstr :=
  match al with
  | [] => hostname
  | a :: al' => copy_alias (cfg_opt_setnstr hostname a i) (S i) al'
  end.

Definition deprecate_alias (s : section) : Z * section :=
  if (List.length (sec_alias s) =? 0)%nat then (0%Z, s)
  else if (0 <? List.length (sec_hostname s))%nat then ((-1)%Z, s)
  else
    let hs := copy_alias (sec_hostname s) 0 (sec_alias s) in
    (0%Z, mk_section (sec_title s) (sec_username s) (sec_password s)
            hs [] (* cfg_free_value(alias) *)
            (sec_ssl s) (sec_wildcard s) (sec_append_myip s)
            (sec_ddns_server s) (sec_ddns_path s) (sec_ddns_response s)
            (sec_checkip_server s) (sec_checkip_path s)).

(** [validate_period]: the clamped value lives in the local [val] only;
    the option keeps the configured value. *)
Definition validate_period (v : Z) : Z :=
  let val := if (v <? DDNS_MIN_PERIOD)%Z then DDNS_MIN_PERIOD else v in
  let val := if (val >? DDNS_MAX_PERIOD)%Z then DDNS_MAX_PERIOD else val in
  0%Z.

Definition validate_hostname (hostname : list cstr) : Z :=
  if (List.length hostname =? 0)%nat then (-1)%Z
  else if existsb (fun nm => (ALIAS_LEN <? strlen nm)%nat) hostname then (-1)%Z
  else 0%Z.

Definition validate_common (s : section) (provider : cstr) (custom : bool)
  : Z * section :=
  match plugin_find provider with
  | None => ((-1)%Z, s)
  | Some _ =>
      if negb custom && is_null (sec_username s) then ((-1)%Z, s)
      else if negb custom && is_null (sec_password s) then ((-1)%Z, s)
      else
        let '(r, s') := deprecate_alias s in
        (* deprecate_alias(cfg) || validate_hostname(...) *)
        if negb (r =? 0)%Z then (1%Z, s')
        else if negb (validate_hostname (sec_hostname s') =? 0)%Z then (1%Z, s')
        else (0%Z, s')
  end.

(** The validators receive the section option; [cfg_opt_getnsec(opt, 0)]
    is its first section. *)
Definition validate_provider (opt : list section) : Z * list section :=
  match opt with
  | [] => ((-1)%Z, opt)
  | s0 :: rest =>
      match sec_title s0 with
      | None => ((-1)%Z, opt)
      | Some provider =>
          let '(r, s0') := validate_common s0 provider false in (r, s0' :: rest)
      end
  end.

Definition validate_custom (opt : list section) : Z * list section :=
  match opt with
  | [] => ((-1)%Z, opt)
  | s0 :: rest =>
      match sec_ddns_server s0 with
      | None => ((-1)%Z, opt)
      | Some _ =>
          let '(r, s0') := validate_common s0 (str "custom") true in (r, s0' :: rest)
      end
  end.

(** Accept phase of libConfuse's [cfg_parse] (external): the validating
    callback of a multi-section option runs each time one more section of
    it has been parsed, on the option holding the sections parsed so far;
    a nonzero return makes the parse a [CFG_PARSE_ERROR]. *)
Fixpoint accept_sections (validate : list section -> Z * list section)
  (parsed rest : list section) : option (list section) :=
  match rest with
  | [] => Some parsed
  | s :: rest' =>
      let '(r, parsed') := validate (parsed ++ [s]) in
      if (r =? 0)%Z then accept_sections validate parsed' rest' else None
  end.

Definition cfg_parse (c : config) : option config :=
  if negb (validate_period (opt_period c) =? 0)%Z then None else
  match accept_sections validate_provider [] (opt_provider c) with
  | None => None
  | Some ps =>
      match accept_sections validate_custom [] (opt_custom c) with
      | None => None
      | Some cs =>
          Some (mk_config (opt_fake_address c) (opt_cache_dir c) (opt_period c)
                  (opt_iterations c) (opt_forced_update c) (opt_iface c) ps cs)
      end
  end.

(** ** getserver *)

(** [getserver(server, name)]; [strdup_ok] says whether [strdup] succeeds.
    Returns the C return value and the record [*name] afterwards. *)
Definition getserver (strdup_ok : bool) (server : cstr) (nm : ddns_name)
  : Z * ddns_name :=
  if (NAME_LEN <? strlen server)%nat then (1%Z, nm)
  else if negb strdup_ok then (1%Z, nm)
  else
    let '(host, p) :=
      match strchr ":"%char server with
      | Some i =>
          let p := atonum (skipn (S i) server) in
          (firstn i server, if (p =? -1)%Z then HTTP_DEFAULT_PORT else p)
      | None => (server, HTTP_DEFAULT_PORT)
      end in
    (0%Z, mk_name (strlcpy NAME_LEN host) p).

(** A [getserver] call in the run: its [strdup], reached past the length
    test, is allocation attempt [n]. *)
Definition getserver_at (server : cstr) (nm : ddns_name) (n : nat) : Z * ddns_name * nat :=
  if (NAME_LEN <? strlen server)%nat then (1%Z, nm, n)
  else (getserver (alloc_ok n) server nm, S n).

(** [cfg_getserver(cfg, server, name)] on the string option read. *)
Definition cfg_getserver (o : option cstr) (nm : ddns_name) (n : nat) : Z * ddns_name * nat :=
  match o with
  | None => (1%Z, nm, n)
  | Some server => getserver_at server nm n
  end.

(** [if (str && strlen(str) <= size) strlcpy(field, str, size);] *)
Definition copy_if_fits (size : nat) (o : option cstr) (field : cstr) : cstr :=
  match o with
  | Some v => if (strlen v <=? size)%nat then strlcpy size v else field
  | None => field
  end.

(** The [hostname] loop: [info->alias[alias_count]] is written with no
    bound check, so a name past the [NELEMS(info->alias)] slots is written
    out of bounds ([None]). *)
Fixpoint add_aliases (al : list cstr) (hs : list cstr) : option (list cstr) :=
  match hs with
  | [] => Some al
  | h :: hs' =>
      if (ALIAS_NUM <=? List.length al)%nat then None
      else add_aliases (al ++ [strlcpy ALIAS_LEN h]) hs'
  end.

(** The [ddns-response] loop: values past [NELEMS(info->server_response)]
    are skipped. *)
Fixpoint add_responses (resp : list cstr) (rs : list cstr) : list cstr :=
  match rs with
  | [] => resp
  | r :: rs' =>
      if (RESPONSE_NUM <=? List.length resp)%nat then add_responses resp rs'
      else add_responses (resp ++ [strlcpy RESPONSE_LEN r]) rs'
  end.

(** The custom-only part of [set_provider_opts] ([if (custom) {...}]); the
    return values of [cfg_getserver] are ignored. *)
Definition set_custom_opts (s : section) (info : ddns_info) (n : nat) : ddns_info * nat :=
  let '(_, ck, n1) := cfg_getserver (sec_checkip_server s) (checkip_name info) n in
  let ckurl := copy_if_fits CHECKIP_URL_LEN (sec_checkip_path s) (checkip_url info) in
  let '(_, sv, n2) := cfg_getserver (sec_ddns_server s) (server_name info) n1 in
  let svurl := copy_if_fits SERVER_URL_LEN (sec_ddns_path s) (server_url info) in
  let resp := add_responses (server_response info) (sec_ddns_response s) in
  (* Default check, if no configured custom response string(s); the count
     is still 0 here, so slot [j] is the next free slot *)
  let resp :=
    if (List.length (sec_ddns_response s) =? 0)%nat
    then resp ++ map (strlcpy RESPONSE_LEN) (firstn RESPONSE_NUM generic_responses)
    else resp in
  (mk_info (system info) ck ckurl sv svurl (wildcard info) (ssl_enabled info)
     (creds_username info) (creds_password info) (alias info)
     (sec_append_myip s) resp, n2).

(** [set_provider_opts(cfg, info, custom)] on the [calloc]ed record, from
    allocation attempt [n]: [Ok None] is the return value 1 (the partly
    filled record is dropped by the caller), [Ok (Some info)] the return
    value 0 with the filled record. *)
Definition set_provider_opts (s : section) (custom : bool) (n : nat)
  : exec (option ddns_info) :=
  let title := if custom then Some (str "custom") else sec_title s in
  match match title with Some t => plugin_find t | None => None end with
  | None => Ok None n
  | Some sys =>
      let '(r1, ck, n1) := getserver_at (sys_checkip_name sys) name_zero n in
      if negb (r1 =? 0)%Z then Ok None n1 else
      if (CHECKIP_URL_LEN <? strlen (sys_checkip_url sys))%nat then Ok None n1 else
      let ckurl := strlcpy CHECKIP_URL_LEN (sys_checkip_url sys) in
      let '(r2, sv, n2) := getserver_at (sys_server_name sys) name_zero n1 in
      if negb (r2 =? 0)%Z then Ok None n2 else
      if (SERVER_URL_LEN <? strlen (sys_server_url sys))%nat then Ok None n2 else
      let svurl := strlcpy SERVER_URL_LEN (sys_server_url sys) in
      let user := copy_if_fits USERNAME_LEN (sec_username s) [] in
      let pass := copy_if_fits PASSWORD_LEN (sec_password s) [] in
      match add_aliases [] (sec_hostname s) with
      | None => Undefined
      | Some names =>
          let info := mk_info (Some sys) ck ckurl sv svurl (sec_wildcard s) (sec_ssl s)
                        user pass names false [] in
          if custom then let '(info', n3) := set_custom_opts s info n2 in Ok (Some info') n3
          else Ok (Some info) n2
      end
  end.

(** [create_provider(cfg, custom)]: the [calloc] is allocation attempt
    [n]; on success the record is inserted at the head of [info_list]. *)
Definition create_provider (s : section) (custom : bool) (l : list ddns_info) (n : nat)
  : exec (Z * list ddns_info) :=
  if negb (alloc_ok n) then Ok (1%Z, l) (S n) else
  match set_provider_opts s custom (S n) with
  | Undefined => Undefined
  | Ok None n' => Ok (1%Z, l) n'
  | Ok (Some info) n' => Ok (0%Z, info :: l) n'
  end.

(** [for (i = 0; i < cfg_size(cfg, sec); i++) ret |= create_provider(...)] *)
Fixpoint create_all (secs : list section) (custom : bool) (ret : Z) (l : list ddns_info)
  (n : nat) : exec (Z * list ddns_info) :=
  match secs with
  | [] => Ok (ret, l) n
  | s :: secs' =>
      match create_provider s custom l n with
      | Undefined => Undefined
      | Ok (r, l') n' => create_all secs' custom (Z.lor ret r) l' n'
      end
  end.

(** [conf_parse_file(file, ctx)] on the parsed tree [c], from allocation
    attempt [n] ([cfg_init]): the returned [cfg_t *] ([None] for NULL),
    the runtime settings and the globals. *)
Definition conf_parse_file (c : config) (ctx : ddns_t) (g : globals) (n : nat)
  : exec (option config * ddns_t * globals) :=
  if negb (alloc_ok n) then Ok (None, ctx, g) (S n) else
  match cfg_parse c with
  | None => Ok (None, ctx, g) (S n)
  | Some cfg =>
      let ctx' := mk_ctx (int_of_long (opt_period cfg)) DDNS_ERROR_UPDATE_PERIOD
                    (int_of_long (opt_forced_update cfg))
                    (if once g then 1%Z else int_of_long (opt_iterations cfg))
                    (opt_fake_address cfg) in
      let ifc := match iface g with None => opt_iface cfg | Some _ => iface g end in
      match create_all (opt_provider cfg) false 0%Z (info_list g) (S n) with
      | Undefined => Undefined
      | Ok (r1, l1) n1 =>
          match create_all (opt_custom cfg) true r1 l1 n1 with
          | Undefined => Undefined
          | Ok (r2, l2) n2 =>
              let g' := mk_globals (once g) ifc (Some (opt_cache_dir cfg)) l2 in
              if negb (r2 =? 0)%Z then Ok (None, ctx', g') n2 else Ok (Some cfg, ctx', g') n2
          end
      end
  end.

(** [set_provider_opts] builds [info] from section [s], for some
    allocation history. *)
Definition builds (s : section) (custom : bool) (info : ddns_info) : Prop :=
  exists n n', set_provider_opts s custom n = Ok (Some info) n'.

(** [infos] are records built from some of the sections [secs], in
    order. *)
Inductive built_from (custom : bool) : list section -> list ddns_info -> Prop :=
| built_nil : built_from custom [] []
| built_skip (s : section) (secs : list section) (infos : list ddns_info) :
    built_from custom secs infos -> built_from custom (s :: secs) infos
| built_keep (s : section) (secs : list section) (info : ddns_info) (infos : list ddns_info) :
    builds s custom info -> built_from custom secs infos ->
    built_from custom (s :: secs) (info :: infos).

(** The hostname list [validate_hostname] is meant to accept: non-empty,
    every name at most [sizeof(alias[0].name)] characters. *)
Definition hostnames_ok (hs : list cstr) : Prop :=
  hs <> [] /\ Forall (fun nm => strlen nm <= ALIAS_LEN)%nat hs.

End Conf.

(** ** The provider list and its iterator

    [info_list] as the [LIST_HEAD] of <sys/queue.h>: the heap holds the
    allocated [ddns_info_t] records by address, each with its
    [link.le_next]; [ptr] is the [static] cursor of [conf_info_iterator]. *)
Module Catalog.

Definition addr := nat.

Record heap := mk_heap {
  head : option addr;                    (* LIST_FIRST(&info_list) *)
  cells : list (addr * option addr);     (* allocated records, le_next *)
  ptr : option addr                      (* static ddns_info_t *ptr *)
}.

(** The program state before [conf_parse_file]: empty list, [ptr = NULL]. *)
Definition init : heap := mk_heap None [] None.

Fixpoint lookup (a : addr) (cs : list (addr * option addr)) : option (option addr) :=
  match cs with
  | [] => None
  | (b, n) :: cs' => if Nat.eqb a b then Some n else lookup a cs'
  end.

(** What a call returns: a pointer ([None] is NULL), or a read of
    [LIST_NEXT(ptr, link)] through a pointer to a freed record. *)
Inductive result :=
| Ret (p : option addr)
| UseAfterFree (p : addr).

(** [LIST_INSERT_HEAD(&info_list, info, link)] for a fresh record [a]. *)
Definition insert_head (a : addr) (h : heap) : heap :=
  mk_heap (Some a) ((a, head h) :: cells h) (ptr h).

Definition conf_info_iterator (first : bool) (h : heap) : result * heap :=
  if first then (Ret (head h), mk_heap (head h) (cells h) (head h))
  else
    match ptr h with
    | None => (Ret None, h)       (* !ptr || ptr == LIST_END (= NULL) *)
    | Some p =>
        match lookup p (cells h) with
        | Some nxt => (Ret nxt, mk_heap (head h) (cells h) nxt)
        | None => (UseAfterFree p, h)
        end
    end.

(** [conf_info_cleanup]: every record is removed and freed; [ptr] is not
    touched. *)
Definition conf_info_cleanup (h : heap) : heap := mk_heap None [] (ptr h).

(** The records of the catalog: those allocated and linked in the list. *)
Definition in_catalog (a : addr) (h : heap) : Prop := lookup a (cells h) <> None.

(** A run of the program on the list: records inserted by
    [create_provider] and calls of the iterator (no cleanup). *)
Inductive op :=
| OpInsert (a : addr)
| OpIter (first : bool).

Fixpoint run (ops : list op) (h : heap) : list result :=
  match ops with
  | [] => []
  | OpInsert a :: ops' => run ops' (insert_head a h)
  | OpIter first :: ops' =>
      let '(r, h') := conf_info_iterator first h in r :: run ops' h'
  end.

Fixpoint inserted (ops : list op) : list addr :=
  match ops with
  | [] => []
  | OpInsert a :: ops' => a :: inserted ops'
  | OpIter _ :: ops' => inserted ops'
  end.

(** The list holding the records [l], head first: [l] inserted from the
    last to the first. *)
Fixpoint build (l : list addr) : heap :=
  match l with
  | [] => init
  | a :: l' => insert_head a (build l')
  end.

(** [n] advances of the iterator, collecting what they return. *)
Fixpoint advance_n (n : nat) (h : heap) : list result :=
  match n with
  | O => []
  | S n' => let '(r, h') := conf_info_iterator false h in r :: advance_n n' h'
  end.

(** The loop [for (info = conf_info_iterator(1); ...; conf_info_iterator(0))]
    run for [n] advances, collecting every return value. *)
Definition traverse (n : nat) (h : heap) : list result :=
  let '(r, h') := conf_info_iterator true h in r :: advance_n n h'.

End Catalog.

(** ** A concrete configuration environment

    Buffer sizes and plugin data for concrete runs of the model. *)

Definition ex_dyndns : ddns_system :=
  mk_system (str "default@dyndns.org") (str "checkip.dyndns.org") (str "/")
    (str "members.dyndns.org") (str "/nic/update").

Definition ex_custom_plugin : ddns_system :=
  mk_system (str "custom") (str "checkip.dyndns.org") (str "/")
    (str "") (str "").

(** A plugin whose default check-IP path does not fit [checkip_url]. *)
Definition ex_broken_plugin : ddns_system :=
  mk_system (str "default@broken.example") (str "checkip.example")
    (str "/a/default/path/much/too/long/for/the/url/buffer")
    (str "update.example") (str "/").

Definition ex_plugin_find (n : cstr) : option ddns_system :=
  if cstr_eqb n (str "default@dyndns.org") then Some ex_dyndns
  else if cstr_eqb n (str "custom") then Some ex_custom_plugin
  else if cstr_eqb n (str "default@broken.example") then Some ex_broken_plugin
  else None.

Definition ex_generic : list cstr := [str "good"; str "nochg"; str "OK"].

(** Every allocation succeeds. *)
Definition ex_alloc (n : nat) : bool := true.

(** [sizeof] values of the instance: names and paths 32, two alias slots,
    credentials and response strings 16, two response slots; periods
    30 .. 864000. *)
Definition ex_set_opts :=
  set_provider_opts 32 32 2 32 32 16 16 16 2 ex_plugin_find ex_generic ex_alloc.

Definition ex_cfg_parse := cfg_parse 32 30 864000 ex_plugin_find.

Definition ex_load :=
  conf_parse_file 32 32 2 32 32 16 16 16 2 30 864000 60 ex_plugin_find ex_generic ex_alloc.

Definition provider_sec (t : string) (hs al : list cstr) : section :=
  mk_section (Some (str t)) (Some (str "admin")) (Some (str "secret")) hs al
    false false false None None [] None None.

Definition custom_sec (user : option cstr) (hs resp : list cstr) : section :=
  mk_section (Some (str "mine")) user (Some (str "pw")) hs [] false false false
    (Some (str "ddns.example:8080")) (Some (str "/update?host=")) resp None None.

Definition ex_config (period : Z) (ps cs : list section) : config :=
  mk_config false (str "/var/cache/inadyn") period 0 604800 None ps cs.

Definition ctx0 : ddns_t := mk_ctx 0 0 0 0 false.

Definition globals0 : globals := mk_globals false None None [].

(** A C string of [n] letters. *)
Definition letters (n : nat) : cstr := repeat "a"%char n.

(** * Properties *)

Section ConfFacts.

Variables NAME_LEN ALIAS_LEN ALIAS_NUM CHECKIP_URL_LEN SERVER_URL_LEN : nat.
Variables USERNAME_LEN PASSWORD_LEN RESPONSE_LEN RESPONSE_NUM : nat.
Variables DDNS_MIN_PERIOD DDNS_MAX_PERIOD DDNS_ERROR_UPDATE_PERIOD : Z.
Variable plugin_find : cstr -> option ddns_system.
Variable generic_responses : list cstr.
Variable alloc_ok : nat -> bool.

Local Abbreviation set_opts :=
  (set_provider_opts NAME_LEN ALIAS_LEN ALIAS_NUM CHECKIP_URL_LEN SERVER_URL_LEN
     USERNAME_LEN PASSWORD_LEN RESPONSE_LEN RESPONSE_NUM plugin_find
     generic_responses alloc_ok).

Local Abbreviation custom_opts :=
  (set_custom_opts NAME_LEN CHECKIP_URL_LEN SERVER_URL_LEN RESPONSE_LEN RESPONSE_NUM
     generic_responses alloc_ok).

Local Abbreviation parse := (cfg_parse ALIAS_LEN DDNS_MIN_PERIOD DDNS_MAX_PERIOD plugin_find).

Local Abbreviation load :=
  (conf_parse_file NAME_LEN ALIAS_LEN ALIAS_NUM CHECKIP_URL_LEN SERVER_URL_LEN
     USERNAME_LEN PASSWORD_LEN RESPONSE_LEN RESPONSE_NUM DDNS_MIN_PERIOD
     DDNS_MAX_PERIOD DDNS_ERROR_UPDATE_PERIOD plugin_find generic_responses alloc_ok).

Local Abbreviation create_provider' :=
  (create_provider NAME_LEN ALIAS_LEN ALIAS_NUM CHECKIP_URL_LEN SERVER_URL_LEN
     USERNAME_LEN PASSWORD_LEN RESPONSE_LEN RESPONSE_NUM plugin_find
     generic_responses alloc_ok).

Local Abbreviation create_all' :=
  (create_all NAME_LEN ALIAS_LEN ALIAS_NUM CHECKIP_URL_LEN SERVER_URL_LEN
     USERNAME_LEN PASSWORD_LEN RESPONSE_LEN RESPONSE_NUM plugin_find
     generic_responses alloc_ok).

Local Abbreviation built_from' :=
  (built_from NAME_LEN ALIAS_LEN ALIAS_NUM CHECKIP_URL_LEN SERVER_URL_LEN
     USERNAME_LEN PASSWORD_LEN RESPONSE_LEN RESPONSE_NUM plugin_find
     generic_responses alloc_ok).

Local Abbreviation builds' :=
  (builds NAME_LEN ALIAS_LEN ALIAS_NUM CHECKIP_URL_LEN SERVER_URL_LEN
     USERNAME_LEN PASSWORD_LEN RESPONSE_LEN RESPONSE_NUM plugin_find
     generic_responses alloc_ok).

Local Abbreviation getserver_at' := (getserver_at NAME_LEN alloc_ok).

(** ** getserver *)

Lemma getserver_ret (b : bool) (server : cstr) (nm : ddns_name) :
  fst (getserver NAME_LEN b server nm) = 0%Z \/
  getserver NAME_LEN b server nm = (1%Z, nm).
Proof.
  unfold getserver.
  destruct (NAME_LEN <? strlen server)%nat; [now right|].
  destruct b; [|now right]. left.
  destruct (strchr ":"%char server); reflexivity.
Qed.

(** C9: on every failing path of [getserver] ([strlen(server)] over the
    capacity, or [strdup] failing) the output record [*name] is left as it
    was: neither its host name nor its port is written. *)
Lemma getserver_failure_leaves_name (b : bool) (server : cstr) (nm : ddns_name) :
  fst (getserver NAME_LEN b server nm) <> 0%Z ->
  snd (getserver NAME_LEN b server nm) = nm.
Proof.
  intros Hfail. destruct (getserver_ret b server nm) as [H | H].
  - contradiction.
  - now rewrite H.
Qed.

(** C7 (amended): [getserver] fails exactly when the whole server string,
    [:port] suffix included, is longer than the name buffer, or when the
    [strdup] copy cannot be allocated. *)
Lemma getserver_fails_iff (b : bool) (server : cstr) (nm : ddns_name) :
  fst (getserver NAME_LEN b server nm) <> 0%Z <->
  (NAME_LEN < strlen server)%nat \/ b = false.
Proof.
  unfold getserver.
  destruct (Nat.ltb_spec NAME_LEN (strlen server)) as [Hlt | Hge].
  - split; [now left | intros _; discriminate].
  - destruct b; simpl.
    + assert (Hok : forall r : cstr * Z, fst (let '(host, p) := r in
                (0%Z, mk_name (strlcpy NAME_LEN host) p)) = 0%Z)
        by (intros [? ?]; reflexivity).
      rewrite Hok. split; [congruence | intros [H | H]; [lia | discriminate]].
    + split; [now right | intros _; discriminate].
Qed.

(** A valid port: a non-empty string of decimal digits. *)
Definition is_number (s : cstr) : Prop :=
  s <> [] /\ Forall (fun c => is_digit c = true) s.

Lemma digits_value_ok (s : cstr) (acc : Z) :
  (0 <= acc)%Z -> Forall (fun c => is_digit c = true) s ->
  exists v, digits_value acc s = Some v /\ (0 <= v)%Z.
Proof.
  revert acc; induction s as [|c s IH]; intros acc Hacc Hall; cbn [digits_value].
  - eauto.
  - inversion Hall as [|? ? Hc Hs]; subst. rewrite Hc.
    apply IH; [lia | assumption].
Qed.

Lemma digits_value_bad (s : cstr) (acc : Z) :
  ~ Forall (fun c => is_digit c = true) s -> digits_value acc s = None.
Proof.
  revert acc; induction s as [|c s IH]; intros acc Hbad; simpl.
  - exfalso. apply Hbad. constructor.
  - destruct (is_digit c) eqn:Hc.
    + apply IH. intros Hs. apply Hbad. constructor; assumption.
    + reflexivity.
Qed.

Lemma atonum_number (s : cstr) : is_number s -> (0 <= atonum s)%Z.
Proof.
  intros [Hne Hall]. unfold atonum.
  destruct (digits_value_ok s 0 ltac:(lia) Hall) as [v [Hv Hpos]].
  destruct s; [contradiction|]. now rewrite Hv.
Qed.

Lemma atonum_not_number (s : cstr) : ~ is_number s -> atonum s = (-1)%Z.
Proof.
  intros Hn. unfold atonum. destruct s as [|c s']; [reflexivity|].
  rewrite digits_value_bad; [reflexivity|].
  intros Hall. apply Hn. split; [discriminate | assumption].
Qed.

Lemma strchr_app (c : ascii) (host suf : cstr) :
  strchr c host = None -> strchr c (host ++ c :: suf) = Some (List.length host).
Proof.
  induction host as [|x host IH]; simpl; intros H.
  - now rewrite Ascii.eqb_refl.
  - destruct (Ascii.eqb x c); [discriminate|].
    rewrite IH; [reflexivity|].
    destruct (strchr c host); [discriminate | reflexivity].
Qed.

Lemma skipn_app_colon (host suf : cstr) (c : ascii) :
  skipn (S (List.length host)) (host ++ c :: suf) = suf.
Proof. induction host; simpl; auto. Qed.

(** C6: for a server string [getserver] accepts, the port is the HTTP
    default when there is no colon; when the string is [host:suffix] (first
    colon after [host]) the port is the number [suffix] denotes if it is a
    non-negative decimal integer, and the HTTP default otherwise. *)
Lemma getserver_port (b : bool) (server : cstr) (nm nm' : ddns_name) :
  getserver NAME_LEN b server nm = (0%Z, nm') ->
  (strchr ":"%char server = None -> port nm' = HTTP_DEFAULT_PORT) /\
  (forall host suffix,
     server = host ++ ":"%char :: suffix ->
     strchr ":"%char host = None ->
     (is_number suffix -> port nm' = atonum suffix /\ (0 <= atonum suffix)%Z) /\
     (~ is_number suffix -> port nm' = HTTP_DEFAULT_PORT)).
Proof.
  unfold getserver. intros Hget.
  destruct (NAME_LEN <? strlen server)%nat; [discriminate|].
  destruct b; [|discriminate]. cbn [negb] in Hget.
  split.
  - intros Hnone. rewrite Hnone in Hget. injection Hget as <-. reflexivity.
  - intros host suffix -> Hhost.
    rewrite (strchr_app _ _ _ Hhost) in Hget. cbv beta iota in Hget.
    rewrite skipn_app_colon in Hget.
    injection Hget as <-. simpl. split.
    + intros Hnum. pose proof (atonum_number _ Hnum).
      destruct (Z.eqb_spec (atonum suffix) (-1)); [lia|]. auto.
    + intros Hnum. now rewrite (atonum_not_number _ Hnum).
Qed.

(** ** set_provider_opts *)

(** The plugin [set_provider_opts] looks up for a section. *)
Definition plugin_of (s : section) (custom : bool) : option ddns_system :=
  match (if custom then Some (str "custom") else sec_title s) with
  | Some t => plugin_find t
  | None => None
  end.

(** The plugin's defaults fit the record and both [strdup] copies of
    [getserver] succeed, from allocation attempt [n]. *)
Definition defaults_ok (sys : ddns_system) (n : nat) : bool :=
  (strlen (sys_checkip_name sys) <=? NAME_LEN)%nat && alloc_ok n &&
  (strlen (sys_checkip_url sys) <=? CHECKIP_URL_LEN)%nat &&
  (strlen (sys_server_name sys) <=? NAME_LEN)%nat && alloc_ok (S n) &&
  (strlen (sys_server_url sys) <=? SERVER_URL_LEN)%nat.

Lemma getserver_at_spec (server : cstr) (nm : ddns_name) (n : nat) :
  getserver_at' server nm n =
  if (strlen server <=? NAME_LEN)%nat
  then ((if alloc_ok n then (0%Z, snd (getserver NAME_LEN true server name_zero))
         else (1%Z, nm)), S n)
  else (1%Z, nm, n).
Proof.
  unfold getserver_at, getserver.
  destruct (Nat.ltb_spec NAME_LEN (strlen server)) as [H|H].
  - rewrite (proj2 (Nat.leb_gt _ _) H). reflexivity.
  - rewrite (proj2 (Nat.leb_le _ _) H).
    destruct (alloc_ok n); cbn [negb]; [|reflexivity].
    destruct (strchr ":"%char server); reflexivity.
Qed.

Lemma add_aliases_spec (al hs : list cstr) :
  (List.length al <= ALIAS_NUM)%nat ->
  add_aliases ALIAS_LEN ALIAS_NUM al hs =
  if (List.length al + List.length hs <=? ALIAS_NUM)%nat
  then Some (al ++ map (strlcpy ALIAS_LEN) hs) else None.
Proof.
  revert al. induction hs as [|h hs IH]; intros al Hle; cbn [add_aliases List.length map].
  - rewrite Nat.add_0_r, app_nil_r. now rewrite (proj2 (Nat.leb_le _ _) Hle).
  - destruct (Nat.leb_spec ALIAS_NUM (List.length al)) as [Hge|Hlt].
    + rewrite (proj2 (Nat.leb_gt _ _)) by lia. reflexivity.
    + rewrite IH by (rewrite length_app; simpl; lia).
      rewrite length_app, <- app_assoc. cbn [List.length app].
      now replace (List.length al + 1 + List.length hs)%nat
        with (List.length al + S (List.length hs))%nat by lia.
Qed.

Lemma add_aliases_nil (hs : list cstr) :
  add_aliases ALIAS_LEN ALIAS_NUM [] hs =
  if (List.length hs <=? ALIAS_NUM)%nat then Some (map (strlcpy ALIAS_LEN) hs) else None.
Proof. rewrite add_aliases_spec by (simpl; lia). reflexivity. Qed.

Lemma set_opts_no_plugin (s : section) (custom : bool) (n : nat) :
  plugin_of s custom = None -> set_opts s custom n = Ok None n.
Proof.
  unfold plugin_of, set_provider_opts. cbv zeta. intros H. now rewrite H.
Qed.

Lemma set_opts_fail (s : section) (custom : bool) (n : nat) (sys : ddns_system) :
  plugin_of s custom = Some sys -> defaults_ok sys n = false ->
  exists n', set_opts s custom n = Ok None n'.
Proof.
  unfold plugin_of, set_provider_opts. cbv zeta. intros Hp Hd. rewrite Hp.
  unfold defaults_ok in Hd.
  rewrite getserver_at_spec.
  destruct (strlen (sys_checkip_name sys) <=? NAME_LEN)%nat eqn:E1; cbv beta iota;
    [|cbn [negb Z.eqb]; eexists; reflexivity].
  destruct (alloc_ok n) eqn:E2; cbv beta iota; cbn [negb Z.eqb];
    [|eexists; reflexivity].
  destruct (CHECKIP_URL_LEN <? strlen (sys_checkip_url sys))%nat eqn:E3;
    [eexists; reflexivity|].
  rewrite getserver_at_spec.
  destruct (strlen (sys_server_name sys) <=? NAME_LEN)%nat eqn:E4; cbv beta iota;
    [|cbn [negb Z.eqb]; eexists; reflexivity].
  destruct (alloc_ok (S n)) eqn:E5; cbv beta iota; cbn [negb Z.eqb];
    [|eexists; reflexivity].
  destruct (SERVER_URL_LEN <? strlen (sys_server_url sys))%nat eqn:E6;
    [eexists; reflexivity|].
  exfalso. apply Nat.ltb_ge, Nat.leb_le in E3. apply Nat.ltb_ge, Nat.leb_le in E6.
  rewrite ?E1, ?E2, ?E3, ?E4, ?E5, ?E6 in Hd. discriminate.
Qed.

Lemma set_opts_ok (s : section) (custom : bool) (n : nat) (sys : ddns_system) :
  plugin_of s custom = Some sys -> defaults_ok sys n = true ->
  set_opts s custom n =
  match add_aliases ALIAS_LEN ALIAS_NUM [] (sec_hostname s) with
  | None => Undefined
  | Some names =>
      let info := mk_info (Some sys) (snd (getserver NAME_LEN true (sys_checkip_name sys) name_zero))
                    (strlcpy CHECKIP_URL_LEN (sys_checkip_url sys))
                    (snd (getserver NAME_LEN true (sys_server_name sys) name_zero))
                    (strlcpy SERVER_URL_LEN (sys_server_url sys))
                    (sec_wildcard s) (sec_ssl s)
                    (copy_if_fits USERNAME_LEN (sec_username s) [])
                    (copy_if_fits PASSWORD_LEN (sec_password s) []) names false [] in
      if custom then let '(info', n3) := custom_opts s info (S (S n)) in Ok (Some info') n3
      else Ok (Some info) (S (S n))
  end.
Proof.
  unfold plugin_of, set_provider_opts. cbv zeta. intros Hp Hd. rewrite Hp.
  unfold defaults_ok in Hd. rewrite !andb_true_iff in Hd.
  destruct Hd as (((((E1 & E2) & E3) & E4) & E5) & E6).
  rewrite getserver_at_spec, E1, E2. cbv beta iota. cbn [negb Z.eqb].
  apply Nat.leb_le, Nat.ltb_ge in E3. rewrite E3.
  rewrite getserver_at_spec, E4, E5. cbv beta iota. cbn [negb Z.eqb].
  apply Nat.leb_le, Nat.ltb_ge in E6. rewrite E6.
  reflexivity.
Qed.

Lemma plugin_of_title (s : section) (custom : bool) (sys : ddns_system) :
  plugin_of s custom = Some sys <->
  exists t, (if custom then Some (str "custom") else sec_title s) = Some t /\
            plugin_find t = Some sys.
Proof.
  unfold plugin_of.
  destruct (if custom then Some (str "custom") else sec_title s) as [t|].
  - split; [intros H; exists t; auto | intros (t' & Ht & H); injection Ht as <-; exact H].
  - split; [discriminate | intros (t' & Ht & _); discriminate].
Qed.

Lemma defaults_ok_false (sys : ddns_system) (n : nat) :
  defaults_ok sys n = false <->
  (NAME_LEN < strlen (sys_checkip_name sys))%nat \/ alloc_ok n = false \/
  (CHECKIP_URL_LEN < strlen (sys_checkip_url sys))%nat \/
  (NAME_LEN < strlen (sys_server_name sys))%nat \/ alloc_ok (S n) = false \/
  (SERVER_URL_LEN < strlen (sys_server_url sys))%nat.
Proof.
  unfold defaults_ok. rewrite !andb_false_iff, !Nat.leb_gt. tauto.
Qed.

Lemma set_custom_opts_keeps (s : section) (info : ddns_info) (n : nat) :
  system (fst (custom_opts s info n)) = system info /\
  alias (fst (custom_opts s info n)) = alias info /\
  wildcard (fst (custom_opts s info n)) = wildcard info /\
  ssl_enabled (fst (custom_opts s info n)) = ssl_enabled info /\
  append_myip (fst (custom_opts s info n)) = sec_append_myip s /\
  server_response (fst (custom_opts s info n)) =
    (if (List.length (sec_ddns_response s) =? 0)%nat
     then add_responses RESPONSE_LEN RESPONSE_NUM (server_response info) (sec_ddns_response s)
          ++ map (strlcpy RESPONSE_LEN) (firstn RESPONSE_NUM generic_responses)
     else add_responses RESPONSE_LEN RESPONSE_NUM (server_response info) (sec_ddns_response s)).
Proof.
  unfold set_custom_opts.
  destruct (cfg_getserver NAME_LEN alloc_ok (sec_checkip_server s) (checkip_name info) n)
    as [[r1 ck] n1].
  destruct (cfg_getserver NAME_LEN alloc_ok (sec_ddns_server s) (server_name info) n1)
    as [[r2 sv] n2].
  repeat split.
Qed.

(** ** conf_parse_file *)

Lemma cfg_parse_shape (c cfg : config) :
  parse c = Some cfg ->
  opt_period cfg = opt_period c /\
  opt_forced_update cfg = opt_forced_update c /\
  opt_iterations cfg = opt_iterations c /\
  opt_iface cfg = opt_iface c /\
  opt_cache_dir cfg = opt_cache_dir c /\
  opt_fake_address cfg = opt_fake_address c.
Proof.
  unfold cfg_parse. destruct (negb _); [discriminate|].
  destruct (accept_sections _ _ _); [|discriminate].
  destruct (accept_sections _ _ _); [|discriminate].
  intros H. injection H as <-. repeat split.
Qed.

(** The runtime settings written by a load that got past [cfg_init] and
    the parser: the configured period, forced-update period and
    fake-address flag, the fixed error period, and one iteration under
    [--once]; the [long] values of [cfg_getint] are narrowed to the [int]
    fields.  They are written before the providers are built, so also
    when the load returns NULL. *)
Lemma load_ctx (c cfg : config) (ctx : ddns_t) (g : globals) (n : nat)
  (r : option config) (ctx' : ddns_t) (g' : globals) (n' : nat) :
  alloc_ok n = true -> parse c = Some cfg ->
  load c ctx g n = Ok (r, ctx', g') n' ->
  ctx' = mk_ctx (int_of_long (opt_period c)) DDNS_ERROR_UPDATE_PERIOD
           (int_of_long (opt_forced_update c))
           (if once g then 1%Z else int_of_long (opt_iterations c))
           (opt_fake_address c).
Proof.
  intros Ha Hp. destruct (cfg_parse_shape c cfg Hp) as (Hper & Hfu & Hit & _ & _ & Hfa).
  unfold conf_parse_file. rewrite Ha, Hp. cbn [negb].
  destruct (create_all' (opt_provider cfg) false 0%Z (info_list g) (S n))
    as [[r1 l1] n1|]; [|discriminate].
  destruct (create_all' (opt_custom cfg) true r1 l1 n1) as [[r2 l2] n2|]; [|discriminate].
  rewrite Hper, Hfu, Hit, Hfa.
  destruct (negb _); intros H; injection H as _ <- _ _; reflexivity.
Qed.

Lemma create_provider_cases (s : section) (custom : bool) (l l' : list ddns_info)
  (n n' : nat) (r : Z) :
  create_provider' s custom l n = Ok (r, l') n' ->
  (r = 1%Z /\ l' = l) \/ (exists info, r = 0%Z /\ l' = info :: l /\ builds' s custom info).
Proof.
  unfold create_provider. destruct (alloc_ok n); cbn [negb].
  - destruct (set_opts s custom (S n)) as [[info|] n1|] eqn:E; intros H.
    + injection H as <- <- _. right. exists info. split; [reflexivity|].
      split; [reflexivity|]. exists (S n), n1. exact E.
    + injection H as <- <- _. left. auto.
    + discriminate.
  - intros H. injection H as <- <- _. left. auto.
Qed.

Lemma built_from_length (custom : bool) (secs : list section) (infos : list ddns_info) :
  built_from' custom secs infos -> (List.length infos <= List.length secs)%nat.
Proof. induction 1; simpl; lia. Qed.

Lemma built_from_none (custom : bool) (secs : list section) : built_from' custom secs [].
Proof. induction secs; constructor; assumption. Qed.

Lemma create_all_spec (secs : list section) (custom : bool) (ret r : Z)
  (l l' : list ddns_info) (n n' : nat) :
  create_all' secs custom ret l n = Ok (r, l') n' ->
  exists infos, built_from' custom secs infos /\ l' = rev infos ++ l /\
    (r = 0%Z <-> ret = 0%Z /\ List.length infos = List.length secs).
Proof.
  revert ret l n. induction secs as [|s secs IH]; intros ret l n; cbn [create_all].
  - intros H. injection H as <- <- _. exists []. split; [constructor|].
    split; [reflexivity|]. simpl. tauto.
  - destruct (create_provider' s custom l n) as [[r1 l1] n1|] eqn:Ec; [|discriminate].
    intros H. destruct (IH _ _ _ H) as (infos & Hb & Hl & Hr).
    pose proof (built_from_length custom secs infos Hb) as Hlen.
    destruct (create_provider_cases s custom l l1 n n1 r1 Ec)
      as [[-> ->] | (info & -> & -> & Hinfo)].
    + exists infos. split; [now constructor|]. split; [exact Hl|].
      rewrite Hr. cbn [List.length]. split.
      * intros [H0 _]. apply Z.lor_eq_0_iff in H0. lia.
      * intros [_ H0]. lia.
    + exists (info :: infos). split; [now constructor|].
      split; [rewrite Hl; simpl; now rewrite <- app_assoc|].
      rewrite Hr, Z.lor_0_r. cbn [List.length]. lia.
Qed.


(** ** Custom response strings *)

Lemma add_responses_firstn (acc rs : list cstr) :
  (List.length acc <= RESPONSE_NUM)%nat ->
  add_responses RESPONSE_LEN RESPONSE_NUM acc rs =
  acc ++ map (strlcpy RESPONSE_LEN) (firstn (RESPONSE_NUM - List.length acc) rs).
Proof.
  revert acc. induction rs as [|r rs IH]; intros acc Hle; simpl.
  - rewrite firstn_nil. simpl. now rewrite app_nil_r.
  - destruct (Nat.leb_spec RESPONSE_NUM (List.length acc)) as [Hge | Hlt].
    + rewrite IH by lia. replace (RESPONSE_NUM - List.length acc) with 0 by lia.
      reflexivity.
    + rewrite IH by (rewrite length_app; simpl; lia).
      rewrite length_app, <- app_assoc. simpl.
      replace (RESPONSE_NUM - List.length acc) with (S (RESPONSE_NUM - (List.length acc + 1)))
        by lia.
      reflexivity.
Qed.

Lemma set_opts_built (s : section) (custom : bool) (n n' : nat) (info : ddns_info) :
  set_opts s custom n = Ok (Some info) n' ->
  exists sys names info0,
    plugin_of s custom = Some sys /\ defaults_ok sys n = true /\
    add_aliases ALIAS_LEN ALIAS_NUM [] (sec_hostname s) = Some names /\
    system info0 = Some sys /\ alias info0 = names /\ wildcard info0 = sec_wildcard s /\
    ssl_enabled info0 = sec_ssl s /\ append_myip info0 = false /\ server_response info0 = [] /\
    info = (if custom then fst (custom_opts s info0 (S (S n))) else info0).
Proof.
  intros H. destruct (plugin_of s custom) as [sys|] eqn:Hp.
  2:{ rewrite (set_opts_no_plugin s custom n Hp) in H. discriminate. }
  destruct (defaults_ok sys n) eqn:Hd.
  2:{ destruct (set_opts_fail s custom n sys Hp Hd) as [n1 E]. congruence. }
  rewrite (set_opts_ok s custom n sys Hp Hd) in H.
  destruct (add_aliases ALIAS_LEN ALIAS_NUM [] (sec_hostname s)) as [names|] eqn:Ea;
    [|discriminate].
  cbv zeta in H.
  match type of H with
  | context [mk_info ?a ?b ?c ?d ?e ?f ?g ?h ?i ?j ?k ?l] =>
      exists sys, names, (mk_info a b c d e f g h i j k l)
  end.
  split; [reflexivity|]. split; [exact Hd|]. split; [reflexivity|].
  do 6 (split; [reflexivity|]).
  destruct custom.
  - destruct (custom_opts s _ (S (S n))) as [info' n3] eqn:Ec.
    injection H as <- _. reflexivity.
  - now injection H as <- _.
Qed.

Lemma set_opts_custom_responses (s : section) (info : ddns_info) (n n' : nat) :
  set_opts s true n = Ok (Some info) n' ->
  server_response info =
    (if (List.length (sec_ddns_response s) =? 0)%nat
     then add_responses RESPONSE_LEN RESPONSE_NUM [] (sec_ddns_response s)
          ++ map (strlcpy RESPONSE_LEN) (firstn RESPONSE_NUM generic_responses)
     else add_responses RESPONSE_LEN RESPONSE_NUM [] (sec_ddns_response s)).
Proof.
  intros H. destruct (set_opts_built s true n n' info H)
    as (sys & names & info0 & _ & _ & _ & _ & _ & _ & _ & _ & Hr & ->).
  destruct (set_custom_opts_keeps s info0 (S (S n))) as (_ & _ & _ & _ & _ & E).
  now rewrite E, Hr.
Qed.

Lemma strlcpy_fits (size : nat) (v : cstr) :
  (strlen v < size)%nat -> strlcpy size v = v.
Proof. intros H. unfold strlcpy, strlen in *. apply firstn_all2. lia. Qed.

Lemma Forall_firstn_cstr (P : cstr -> Prop) (n : nat) (l : list cstr) :
  Forall P l -> Forall P (firstn n l).
Proof.
  revert l; induction n as [|n IH]; intros l Hl; [constructor|].
  destruct l as [|x l]; [constructor|]. inversion Hl; subst. simpl. auto.
Qed.

Lemma map_strlcpy_fits (size : nat) (l : list cstr) :
  Forall (fun r => strlen r < size)%nat l -> map (strlcpy size) l = l.
Proof.
  induction l as [|x l IH]; intros Hl; [reflexivity|].
  inversion Hl; subst. simpl. rewrite strlcpy_fits by assumption. now rewrite IH.
Qed.

(** C5 (amended): for a custom provider record built by
    [set_provider_opts] (with defined behaviour): with no [ddns-response]
    configured the response strings are the first [NELEMS(server_response)]
    generic responses (each generic string fitting its slot); with [n]
    configured values the record keeps the first [min n NELEMS] of them in
    order, extra values being skipped, and every kept value that fits its
    slot is stored unmodified; and the response list is non-empty whenever
    there is at least one slot and the generic table is non-empty. *)
Lemma custom_response_patterns (s : section) (info : ddns_info) (n n' : nat) :
  set_opts s true n = Ok (Some info) n' ->
  (sec_ddns_response s = [] ->
   Forall (fun r => strlen r < RESPONSE_LEN)%nat generic_responses ->
   server_response info = firstn RESPONSE_NUM generic_responses) /\
  (sec_ddns_response s <> [] ->
   List.length (server_response info) =
     Nat.min (List.length (sec_ddns_response s)) RESPONSE_NUM /\
   (forall i r, (i < RESPONSE_NUM)%nat ->
      nth_error (sec_ddns_response s) i = Some r ->
      (strlen r < RESPONSE_LEN)%nat ->
      nth_error (server_response info) i = Some r)) /\
  ((0 < RESPONSE_NUM)%nat -> generic_responses <> [] -> server_response info <> []).
Proof.
  intros Hs. pose proof (set_opts_custom_responses s info n n' Hs) as Hr.
  rewrite add_responses_firstn in Hr by (simpl; lia).
  cbn [List.length app] in Hr. rewrite Nat.sub_0_r in Hr.
  split; [|split].
  - intros Hnil Hfit. rewrite Hnil in Hr. simpl in Hr.
    rewrite firstn_nil in Hr. simpl in Hr. rewrite Hr.
    apply map_strlcpy_fits, Forall_firstn_cstr, Hfit.
  - intros Hne. destruct (sec_ddns_response s) as [|r0 rs] eqn:E; [contradiction|].
    simpl in Hr. rewrite Hr. split.
    + rewrite length_map, length_firstn. apply Nat.min_comm.
    + intros i r Hi Hnth Hfit.
      rewrite nth_error_map, nth_error_firstn, Hnth.
      destruct (Nat.ltb_spec i RESPONSE_NUM); [|lia].
      simpl. now rewrite strlcpy_fits.
  - intros Hn Hg. rewrite Hr.
    destruct RESPONSE_NUM as [|k]; [lia|].
    destruct (sec_ddns_response s) as [|r0 rs]; simpl.
    + destruct generic_responses; [contradiction|]. simpl. discriminate.
    + discriminate.
Qed.

(** ** Alias migration and hostname validation *)

Lemma copy_alias_appends (hs al : list cstr) :
  copy_alias hs (List.length hs) al = hs ++ al.
Proof.
  revert hs. induction al as [|a al IH]; intros hs; simpl.
  - now rewrite app_nil_r.
  - unfold cfg_opt_setnstr. rewrite Nat.ltb_irrefl.
    replace (S (List.length hs)) with (List.length (hs ++ [a]))
      by (rewrite length_app; simpl; lia).
    rewrite IH, <- app_assoc. reflexivity.
Qed.

(** A section with only [alias] set gets [hostname] equal to the alias
    list, in order, and its alias list dropped. *)
Lemma deprecate_alias_migrates (s : section) :
  sec_alias s <> [] -> sec_hostname s = [] ->
  fst (deprecate_alias s) = 0%Z /\
  sec_hostname (snd (deprecate_alias s)) = sec_alias s /\
  sec_alias (snd (deprecate_alias s)) = [].
Proof.
  intros Hal Hhs. unfold deprecate_alias. rewrite Hhs.
  destruct (sec_alias s) as [|a al] eqn:E; [contradiction|]. simpl.
  split; [reflexivity|]. split; [|reflexivity].
  exact (copy_alias_appends [] (a :: al)).
Qed.

(** A section with both [alias] and [hostname] set is refused. *)
Lemma deprecate_alias_conflict (s : section) :
  sec_alias s <> [] -> sec_hostname s <> [] -> fst (deprecate_alias s) = (-1)%Z.
Proof.
  intros Hal Hhs. unfold deprecate_alias.
  destruct (sec_alias s); [contradiction|].
  destruct (sec_hostname s); [contradiction|]. reflexivity.
Qed.

(** The length test of [validate_hostname] lets a name of exactly
    [sizeof(alias[0].name)] characters through, and [strlcpy] into that
    buffer then drops its last character. *)
Lemma hostname_at_capacity (h : cstr) :
  (0 < ALIAS_LEN)%nat -> strlen h = ALIAS_LEN ->
  validate_hostname ALIAS_LEN [h] = 0%Z /\
  strlcpy ALIAS_LEN h = firstn (ALIAS_LEN - 1) h /\
  strlcpy ALIAS_LEN h <> h.
Proof.
  intros Hpos Hlen. unfold validate_hostname. simpl.
  rewrite (proj2 (Nat.ltb_ge ALIAS_LEN (strlen h))) by lia. simpl.
  split; [reflexivity|]. unfold strlcpy. rewrite <- Nat.sub_1_r.
  split; [reflexivity|]. intros Heq.
  assert (Hl : List.length (firstn (ALIAS_LEN - 1) h) = List.length h) by now rewrite Heq.
  rewrite length_firstn in Hl. unfold strlen in Hlen. lia.
Qed.

Lemma hostname_over_capacity (h : cstr) :
  strlen h = S ALIAS_LEN -> validate_hostname ALIAS_LEN [h] = (-1)%Z.
Proof.
  intros Hlen. unfold validate_hostname. simpl.
  rewrite (proj2 (Nat.ltb_lt ALIAS_LEN (strlen h))) by lia. reflexivity.
Qed.

(** ** Validators, further properties *)

Lemma validate_hostname_spec (hs : list cstr) :
  validate_hostname ALIAS_LEN hs = 0%Z <-> hostnames_ok ALIAS_LEN hs.
Proof.
  unfold validate_hostname, hostnames_ok.
  destruct hs as [|x l]; cbn [List.length Nat.eqb].
  - split; [discriminate | intros [H _]; contradiction].
  - destruct (existsb (fun nm => (ALIAS_LEN <? strlen nm)%nat) (x :: l)) eqn:E.
    + split; [discriminate|]. intros [_ HF].
      apply existsb_exists in E as [y [Hy Hlt]]. apply Nat.ltb_lt in Hlt.
      rewrite Forall_forall in HF. specialize (HF y Hy). lia.
    + split; [intros _ | reflexivity]. split; [discriminate|].
      apply Forall_forall. intros y Hy.
      destruct (Nat.ltb_spec ALIAS_LEN (strlen y)) as [Hlt|]; [|lia].
      assert (Ht : existsb (fun nm => (ALIAS_LEN <? strlen nm)%nat) (x :: l) = true)
        by (apply existsb_exists; exists y; split; [exact Hy | apply Nat.ltb_lt, Hlt]).
      congruence.
Qed.

(** [validate_common] accepts a section exactly when the provider has a
    plugin, a built-in provider has both a username and a password (a
    custom one needs neither), and either no alias is set and the hostname
    list is non-empty with every name within [sizeof(alias[0].name)], or
    only aliases are set and they satisfy that condition. *)
Theorem validate_common_spec (s : section) (p : cstr) (custom : bool) :
  fst (validate_common ALIAS_LEN plugin_find s p custom) = 0%Z <->
  plugin_find p <> None /\
  (custom = false -> sec_username s <> None /\ sec_password s <> None) /\
  ((sec_alias s = [] /\ hostnames_ok ALIAS_LEN (sec_hostname s)) \/
   (sec_alias s <> [] /\ sec_hostname s = [] /\ hostnames_ok ALIAS_LEN (sec_alias s))).
Proof.
  unfold validate_common.
  destruct (plugin_find p) as [sys|] eqn:Ep;
    [| split; [discriminate | intros [H _]; congruence]].
  assert (Hpl : Some sys <> None) by discriminate.
  destruct s as [t u pw hs al ssl wc am ds dp dr cs cp]; cbn [sec_username sec_password
    sec_alias sec_hostname].
  destruct (negb custom && is_null u) eqn:E1.
  { split; [discriminate|]. intros (_ & Hc & _).
    destruct custom, u; try discriminate. destruct (Hc eq_refl); congruence. }
  destruct (negb custom && is_null pw) eqn:E2.
  { split; [discriminate|]. intros (_ & Hc & _).
    destruct custom, pw; try discriminate. destruct (Hc eq_refl); congruence. }
  assert (Hcr : custom = false -> u <> None /\ pw <> None).
  { intros ->. destruct u, pw; try discriminate. split; discriminate. }
  unfold deprecate_alias. cbn [sec_alias sec_hostname].
  destruct al as [|a al]; cbn [List.length Nat.eqb].
  - cbn [sec_hostname].
    destruct (Z.eqb_spec (validate_hostname ALIAS_LEN hs) 0) as [Hv | Hv];
      cbn [negb Z.eqb fst]; rewrite validate_hostname_spec in Hv.
    + split; [intros _ | reflexivity]. auto.
    + split; [discriminate|]. intros (_ & _ & [[_ H] | (H & _)]); [contradiction | congruence].
  - destruct hs as [|h hs]; cbn [List.length Nat.ltb Nat.leb negb Z.eqb fst].
    + cbn [sec_hostname].
      replace (copy_alias [] 0 (a :: al)) with (a :: al)
        by (symmetry; exact (copy_alias_appends [] (a :: al))).
      destruct (Z.eqb_spec (validate_hostname ALIAS_LEN (a :: al)) 0) as [Hv | Hv];
        cbn [negb Z.eqb fst]; rewrite validate_hostname_spec in Hv.
      * split; [intros _ | reflexivity].
        split; [exact Hpl | split; [exact Hcr |]]. right. split; [discriminate | auto].
      * split; [discriminate|]. intros (_ & _ & [[H _] | (_ & _ & H)]); [discriminate | contradiction].
    + split; [discriminate|]. intros (_ & _ & [[H _] | (_ & H & _)]); discriminate.
Qed.

Lemma deprecate_alias_fields (s s1 : section) (r : Z) :
  deprecate_alias s = (r, s1) ->
  sec_title s1 = sec_title s /\ sec_username s1 = sec_username s /\
  sec_password s1 = sec_password s /\ sec_ddns_server s1 = sec_ddns_server s /\
  (r = 0%Z -> sec_alias s1 = []).
Proof.
  unfold deprecate_alias.
  destruct (Nat.eqb_spec (List.length (sec_alias s)) 0) as [E|E].
  - intros H. injection H as <- <-. repeat split. intros _.
    now apply length_zero_iff_nil.
  - destruct (0 <? List.length (sec_hostname s))%nat.
    + intros H. injection H as <- <-. repeat split. discriminate.
    + intros H. injection H as <- <-. repeat split.
Qed.

Lemma validate_common_fields (s s1 : section) (p : cstr) (custom : bool) (r : Z) :
  validate_common ALIAS_LEN plugin_find s p custom = (r, s1) ->
  sec_title s1 = sec_title s /\ sec_username s1 = sec_username s /\
  sec_password s1 = sec_password s /\ sec_ddns_server s1 = sec_ddns_server s.
Proof.
  unfold validate_common.
  destruct (plugin_find p); [|intros H; injection H as _ <-; auto].
  destruct (negb custom && is_null (sec_username s)); [intros H; injection H as _ <-; auto|].
  destruct (negb custom && is_null (sec_password s)); [intros H; injection H as _ <-; auto|].
  destruct (deprecate_alias s) as [r1 s2] eqn:Ed.
  destruct (deprecate_alias_fields s s2 r1 Ed) as (H1 & H2 & H3 & H4 & _).
  destruct (negb (r1 =? 0)%Z); [intros H; injection H as _ <-; auto|].
  destruct (negb (validate_hostname ALIAS_LEN (sec_hostname s2) =? 0)%Z);
    intros H; injection H as _ <-; auto.
Qed.

(** A section [validate_common] accepted is accepted again, unchanged. *)
Lemma validate_common_idem (s s1 : section) (p : cstr) (custom : bool) :
  validate_common ALIAS_LEN plugin_find s p custom = (0%Z, s1) ->
  validate_common ALIAS_LEN plugin_find s1 p custom = (0%Z, s1).
Proof.
  intros Hv. destruct (validate_common_fields s s1 p custom 0 Hv) as (_ & Hu & Hp & _).
  revert Hv. unfold validate_common.
  destruct (plugin_find p); [|discriminate].
  rewrite Hu, Hp.
  destruct (negb custom && is_null (sec_username s)); [discriminate|].
  destruct (negb custom && is_null (sec_password s)); [discriminate|].
  destruct (deprecate_alias s) as [r1 s2] eqn:Ed.
  destruct (Z.eqb_spec r1 0) as [E|E]; [subst r1|discriminate]. cbn [negb].
  destruct (deprecate_alias_fields s s2 0 Ed) as (_ & _ & _ & _ & Hal).
  specialize (Hal eq_refl).
  destruct (Z.eqb_spec (validate_hostname ALIAS_LEN (sec_hostname s2)) 0) as [Hh|Hh];
    [|discriminate].
  intros H. injection H as <-.
  unfold deprecate_alias. rewrite Hal. cbn [List.length Nat.eqb negb Z.eqb].
  rewrite Hh. reflexivity.
Qed.

Lemma accept_provider_rest (s0 : section) (pre rest : list section) :
  validate_provider ALIAS_LEN plugin_find [s0] = (0%Z, [s0]) ->
  accept_sections (validate_provider ALIAS_LEN plugin_find) (s0 :: pre) rest =
  Some (s0 :: pre ++ rest).
Proof.
  intros Hv. revert pre. induction rest as [|x rest IH]; intros pre;
    cbn [accept_sections app].
  - now rewrite app_nil_r.
  - assert (Hx : validate_provider ALIAS_LEN plugin_find (s0 :: pre ++ [x]) =
                 (0%Z, s0 :: pre ++ [x])).
    { revert Hv. unfold validate_provider. destruct (sec_title s0) as [t|]; [|discriminate].
      destruct (validate_common ALIAS_LEN plugin_find s0 t false) as [r s0'].
      intros H. now injection H as -> ->. }
    rewrite Hx. cbn [Z.eqb].
    rewrite (IH (pre ++ [x])). now rewrite <- app_assoc.
Qed.

(** The [provider] validator looks at [cfg_opt_getnsec(opt, 0)] only: when
    the first provider section has been parsed and validated, every later
    provider section is accepted as it is, whatever it holds (no plugin,
    credential or hostname check, no alias migration). *)
Theorem accept_provider_first_only (s0 s0' : section) (r : Z) (rest : list section) :
  validate_provider ALIAS_LEN plugin_find [s0] = (r, [s0']) ->
  accept_sections (validate_provider ALIAS_LEN plugin_find) [] (s0 :: rest) =
  if (r =? 0)%Z then Some (s0' :: rest) else None.
Proof.
  intros Hv. cbn [accept_sections app]. rewrite Hv.
  destruct (Z.eqb_spec r 0) as [->|]; [|reflexivity].
  apply accept_provider_rest. revert Hv. unfold validate_provider.
  destruct (sec_title s0) as [t|] eqn:Et; [|discriminate].
  destruct (validate_common ALIAS_LEN plugin_find s0 t false) as [r1 s1] eqn:Ev.
  intros H. injection H as -> <-.
  destruct (validate_common_fields s0 s1 t false 0 Ev) as (Ht & _).
  rewrite Ht, Et, (validate_common_idem s0 s1 t false Ev). reflexivity.
Qed.

Lemma accept_custom_rest (s0 : section) (pre rest : list section) :
  validate_custom ALIAS_LEN plugin_find [s0] = (0%Z, [s0]) ->
  accept_sections (validate_custom ALIAS_LEN plugin_find) (s0 :: pre) rest =
  Some (s0 :: pre ++ rest).
Proof.
  intros Hv. revert pre. induction rest as [|x rest IH]; intros pre;
    cbn [accept_sections app].
  - now rewrite app_nil_r.
  - assert (Hx : validate_custom ALIAS_LEN plugin_find (s0 :: pre ++ [x]) =
                 (0%Z, s0 :: pre ++ [x])).
    { revert Hv. unfold validate_custom. destruct (sec_ddns_server s0) as [d|]; [|discriminate].
      destruct (validate_common ALIAS_LEN plugin_find s0 (str "custom") true) as [r s0'].
      intros H. now injection H as -> ->. }
    rewrite Hx. cbn [Z.eqb].
    rewrite (IH (pre ++ [x])). now rewrite <- app_assoc.
Qed.

(** The same for the [custom] validator: only the first custom section is
    checked (for [ddns-server], hostnames, aliases). *)
Theorem accept_custom_first_only (s0 s0' : section) (r : Z) (rest : list section) :
  validate_custom ALIAS_LEN plugin_find [s0] = (r, [s0']) ->
  accept_sections (validate_custom ALIAS_LEN plugin_find) [] (s0 :: rest) =
  if (r =? 0)%Z then Some (s0' :: rest) else None.
Proof.
  intros Hv. cbn [accept_sections app]. rewrite Hv.
  destruct (Z.eqb_spec r 0) as [->|]; [|reflexivity].
  apply accept_custom_rest. revert Hv. unfold validate_custom.
  destruct (sec_ddns_server s0) as [d|] eqn:Ed; [|discriminate].
  destruct (validate_common ALIAS_LEN plugin_find s0 (str "custom") true) as [r1 s1] eqn:Ev.
  intros H. injection H as -> <-.
  destruct (validate_common_fields s0 s1 _ true 0 Ev) as (_ & _ & _ & Hd).
  rewrite Hd, Ed, (validate_common_idem s0 s1 _ true Ev). reflexivity.
Qed.

(** ** getserver, further properties *)

Lemma strlcpy_id (size : nat) (v : cstr) :
  strlcpy size v = v <-> (strlen v < size)%nat \/ v = [].
Proof.
  unfold strlcpy, strlen. split.
  - intros H. destruct v as [|x v]; [now right|]. left.
    assert (Hl : List.length (firstn (pred size) (x :: v)) = List.length (x :: v))
      by now rewrite H.
    rewrite length_firstn in Hl. simpl in Hl |- *. lia.
  - intros [H | ->]; [apply firstn_all2; lia | now rewrite firstn_nil].
Qed.

(** The host part written by a successful [getserver]: with a [:port]
    suffix the host before the first colon is copied whole (it is shorter
    than the buffer since the full string fits); without one the string is
    kept whole only when it is shorter than the buffer: a name of exactly
    [sizeof(name->name)] characters passes the length check and loses its
    last character to [strlcpy]. *)
Theorem getserver_host (b : bool) (server : cstr) (nm nm' : ddns_name) :
  getserver NAME_LEN b server nm = (0%Z, nm') ->
  (forall host suffix,
     server = host ++ ":"%char :: suffix ->
     strchr ":"%char host = None -> name nm' = host) /\
  (strchr ":"%char server = None ->
     (name nm' = server <-> (strlen server < NAME_LEN)%nat \/ server = [])).
Proof.
  unfold getserver. intros Hget.
  destruct (Nat.ltb_spec NAME_LEN (strlen server)) as [|Hle]; [discriminate|].
  destruct b; [|discriminate]. cbn [negb] in Hget.
  split.
  - intros host suffix Hs Hhost. subst server.
    rewrite (strchr_app _ _ _ Hhost) in Hget. cbv beta iota in Hget.
    injection Hget as <-. cbn [name].
    rewrite firstn_app, Nat.sub_diag, firstn_O, app_nil_r, firstn_all.
    apply strlcpy_id. left. unfold strlen in *.
    rewrite length_app in Hle. simpl in Hle. lia.
  - intros Hnone. rewrite Hnone in Hget. injection Hget as <-. cbn [name].
    apply strlcpy_id.
Qed.

(** ** set_provider_opts: further properties *)

(** [set_provider_opts] returns an error, without writing past a buffer,
    exactly when the provider name has no plugin, when one of the plugin's
    defaults does not fit its field (the check-IP server name, the
    check-IP path, the update server name or the update path), or when
    one of the two [strdup] copies made by [getserver] fails.  Nothing in
    the section itself (credentials, hostnames, custom settings) can make
    it return an error. *)
Theorem set_provider_opts_fails (s : section) (custom : bool) (n : nat) :
  (exists n', set_opts s custom n = Ok None n') <->
  forall t sys,
    (if custom then Some (str "custom") else sec_title s) = Some t ->
    plugin_find t = Some sys ->
    (NAME_LEN < strlen (sys_checkip_name sys))%nat \/ alloc_ok n = false \/
    (CHECKIP_URL_LEN < strlen (sys_checkip_url sys))%nat \/
    (NAME_LEN < strlen (sys_server_name sys))%nat \/ alloc_ok (S n) = false \/
    (SERVER_URL_LEN < strlen (sys_server_url sys))%nat.
Proof.
  destruct (plugin_of s custom) as [sys|] eqn:Hp.
  - assert (Huniq : forall t sys', (if custom then Some (str "custom") else sec_title s) = Some t ->
                    plugin_find t = Some sys' -> sys' = sys).
    { intros t sys' Ht Hf. assert (H : plugin_of s custom = Some sys')
        by (apply plugin_of_title; eauto). congruence. }
    destruct (defaults_ok sys n) eqn:Hd.
    + split.
      * intros [n' H]. rewrite (set_opts_ok s custom n sys Hp Hd) in H.
        destruct (add_aliases ALIAS_LEN ALIAS_NUM [] (sec_hostname s)); [|discriminate].
        cbv zeta in H. destruct custom; [|discriminate].
        destruct (custom_opts s _ _); discriminate.
      * intros H. apply plugin_of_title in Hp as (t & Ht & Hf).
        specialize (H t sys Ht Hf). apply defaults_ok_false in H. congruence.
    + split.
      * intros _ t sys' Ht Hf. rewrite (Huniq t sys' Ht Hf). now apply defaults_ok_false.
      * intros _. exact (set_opts_fail s custom n sys Hp Hd).
  - split.
    + intros _ t sys Ht Hf. assert (H : plugin_of s custom = Some sys)
        by (apply plugin_of_title; eauto). congruence.
    + intros _. exists n. exact (set_opts_no_plugin s custom n Hp).
Qed.

(** [set_provider_opts] writes past the [alias] array, an undefined
    behaviour, exactly when the construction got past the plugin lookup
    and the two [getserver] calls and the section lists more hostnames
    than [NELEMS(info->alias)]: the hostname loop has no bound check. *)
Theorem set_provider_opts_overflow (s : section) (custom : bool) (n : nat) :
  set_opts s custom n = Undefined <->
  exists t sys,
    (if custom then Some (str "custom") else sec_title s) = Some t /\
    plugin_find t = Some sys /\
    (strlen (sys_checkip_name sys) <= NAME_LEN)%nat /\ alloc_ok n = true /\
    (strlen (sys_checkip_url sys) <= CHECKIP_URL_LEN)%nat /\
    (strlen (sys_server_name sys) <= NAME_LEN)%nat /\ alloc_ok (S n) = true /\
    (strlen (sys_server_url sys) <= SERVER_URL_LEN)%nat /\
    (ALIAS_NUM < List.length (sec_hostname s))%nat.
Proof.
  destruct (plugin_of s custom) as [sys|] eqn:Hp.
  - pose proof Hp as Hp'. apply plugin_of_title in Hp' as (t & Ht & Hf).
    assert (Hd_iff : defaults_ok sys n = true <->
      (strlen (sys_checkip_name sys) <= NAME_LEN)%nat /\ alloc_ok n = true /\
      (strlen (sys_checkip_url sys) <= CHECKIP_URL_LEN)%nat /\
      (strlen (sys_server_name sys) <= NAME_LEN)%nat /\ alloc_ok (S n) = true /\
      (strlen (sys_server_url sys) <= SERVER_URL_LEN)%nat).
    { unfold defaults_ok. rewrite !andb_true_iff, !Nat.leb_le. tauto. }
    destruct (defaults_ok sys n) eqn:Hd.
    + rewrite (set_opts_ok s custom n sys Hp Hd), add_aliases_nil.
      destruct (Nat.leb_spec (List.length (sec_hostname s)) ALIAS_NUM) as [Hl|Hl].
      * split.
        -- cbv zeta. destruct custom; [destruct (custom_opts s _ _)|]; discriminate.
        -- intros (t' & sys' & Ht' & Hf' & _ & _ & _ & _ & _ & _ & Hn). lia.
      * split; [intros _|reflexivity].
        destruct (proj1 Hd_iff eq_refl) as (H1 & H2 & H3 & H4 & H5 & H6).
        exists t, sys. auto 10.
    + destruct (set_opts_fail s custom n sys Hp Hd) as [n' ->]. split; [discriminate|].
      intros (t' & sys' & Ht' & Hf' & H1 & H2 & H3 & H4 & H5 & H6 & _).
      rewrite Ht in Ht'. injection Ht' as <-. rewrite Hf in Hf'. injection Hf' as <-.
      assert (E : false = true) by (apply Hd_iff; auto 10). discriminate.
  - rewrite (set_opts_no_plugin s custom n Hp). split; [discriminate|].
    intros (t & sys & Ht & Hf & _). assert (H : plugin_of s custom = Some sys)
      by (apply plugin_of_title; eauto). congruence.
Qed.

(** The record a successful [set_provider_opts] builds: the plugin found
    for the section's title (["custom"] for a custom section); the
    section lists at most [NELEMS(info->alias)] hostnames (more would have
    overflowed the array) and the record has one alias per hostname,
    each cut to the alias buffer; the [wildcard] and [ssl] flags of the
    section; a built-in provider gets no response patterns and no
    [append-myip], a custom one the section's [append-myip]. *)
Theorem set_provider_opts_record (s : section) (custom : bool) (n n' : nat) (info : ddns_info) :
  set_opts s custom n = Ok (Some info) n' ->
  (exists t, (if custom then Some (str "custom") else sec_title s) = Some t /\
             system info = plugin_find t) /\
  (List.length (sec_hostname s) <= ALIAS_NUM)%nat /\
  alias info = map (strlcpy ALIAS_LEN) (sec_hostname s) /\
  wildcard info = sec_wildcard s /\
  ssl_enabled info = sec_ssl s /\
  (custom = false -> append_myip info = false /\ server_response info = []) /\
  (custom = true -> append_myip info = sec_append_myip s).
Proof.
  intros H. destruct (set_opts_built s custom n n' info H)
    as (sys & names & info0 & Hp & _ & Ha & Hs & Hal & Hw & Hssl & Hap & Hr & ->).
  rewrite add_aliases_nil in Ha.
  destruct (Nat.leb_spec (List.length (sec_hostname s)) ALIAS_NUM) as [Hl|];
    [|discriminate]. injection Ha as <-.
  apply plugin_of_title in Hp as (t & Ht & Hf).
  destruct custom.
  - destruct (set_custom_opts_keeps s info0 (S (S n))) as (E1 & E2 & E3 & E4 & E5 & _).
    rewrite E1, E2, E3, E4, E5.
    split; [exists t; split; [exact Ht | congruence]|].
    do 4 (split; [assumption|]). split; [discriminate | reflexivity].
  - split; [exists t; split; [exact Ht | congruence]|].
    do 4 (split; [assumption|]). split; [auto | discriminate].
Qed.

(** The [checkip-server] / [ddns-server] settings of a custom section:
    when given, short enough and copied ([strdup] succeeding), the
    plugin's endpoint is replaced completely (host and port, nothing of
    the previous value survives); when too long, when the copy fails, or
    when not given, the plugin's endpoint stays, silently.  The
    [ddns-server] copy is the allocation after the [checkip-server] one,
    if that one was attempted.  The same for [checkip-path] /
    [ddns-path], which allocate nothing. *)
Theorem custom_server_override (s : section) (info : ddns_info) (n : nat) :
  checkip_name (fst (custom_opts s info n)) =
    match sec_checkip_server s with
    | Some v => if (strlen v <=? NAME_LEN)%nat && alloc_ok n
                then snd (getserver NAME_LEN true v name_zero) else checkip_name info
    | None => checkip_name info
    end /\
  server_name (fst (custom_opts s info n)) =
    match sec_ddns_server s with
    | Some v => if (strlen v <=? NAME_LEN)%nat &&
                   alloc_ok (match sec_checkip_server s with
                             | Some v' => if (strlen v' <=? NAME_LEN)%nat then S n else n
                             | None => n
                             end)
                then snd (getserver NAME_LEN true v name_zero) else server_name info
    | None => server_name info
    end /\
  checkip_url (fst (custom_opts s info n)) =
    match sec_checkip_path s with
    | Some v => if (strlen v <=? CHECKIP_URL_LEN)%nat
                then strlcpy CHECKIP_URL_LEN v else checkip_url info
    | None => checkip_url info
    end /\
  server_url (fst (custom_opts s info n)) =
    match sec_ddns_path s with
    | Some v => if (strlen v <=? SERVER_URL_LEN)%nat
                then strlcpy SERVER_URL_LEN v else server_url info
    | None => server_url info
    end.
Proof.
  unfold set_custom_opts, cfg_getserver.
  destruct (sec_checkip_server s) as [v|];
    [rewrite getserver_at_spec; destruct (strlen v <=? NAME_LEN)%nat;
     [destruct (alloc_ok n)|]|]; cbv beta iota zeta;
  destruct (sec_ddns_server s) as [w|]; cbv beta iota zeta;
    try (rewrite getserver_at_spec; destruct (strlen w <=? NAME_LEN)%nat;
         cbn [andb]; [destruct (alloc_ok _)|]; cbv beta iota zeta);
  unfold copy_if_fits; cbn [fst checkip_name server_name checkip_url server_url andb];
  repeat split.
Qed.

(** ** conf_parse_file: globals *)

(** The globals a load past [cfg_init] and the parser sets, whatever it
    returns: a command-line interface ([iface] already set) takes
    precedence over the [iface] setting, [cache_dir] is the [cache-dir]
    setting and [once] is not changed. *)
Theorem load_globals (c cfg : config) (ctx : ddns_t) (g : globals) (n : nat)
  (r : option config) (ctx' : ddns_t) (g' : globals) (n' : nat) :
  alloc_ok n = true -> parse c = Some cfg ->
  load c ctx g n = Ok (r, ctx', g') n' ->
  iface g' = match iface g with Some i => Some i | None => opt_iface c end /\
  cache_dir g' = Some (opt_cache_dir c) /\
  once g' = once g.
Proof.
  intros Ha Hp. destruct (cfg_parse_shape c cfg Hp) as (_ & _ & _ & Hi & Hcd & _).
  unfold conf_parse_file. rewrite Ha, Hp. cbn [negb].
  destruct (create_all' (opt_provider cfg) false 0%Z (info_list g) (S n))
    as [[r1 l1] n1|]; [|discriminate].
  destruct (create_all' (opt_custom cfg) true r1 l1 n1) as [[r2 l2] n2|]; [|discriminate].
  rewrite Hi, Hcd.
  destruct (negb _); intros H; injection H as _ _ <- _; cbn [iface cache_dir once];
    destruct (iface g); auto.
Qed.

End ConfFacts.

(** ** The catalog iterator *)

Module CatalogFacts.
Import Catalog.

(** Advancing with a NULL cursor (never reset, or past the end) returns
    NULL and changes nothing. *)
Lemma advance_null (h : heap) :
  ptr h = None -> conf_info_iterator false h = (Ret None, h).
Proof. intros H. unfold conf_info_iterator. now rewrite H. Qed.

(** The cursor is NULL or a record of the catalog, and every link of an
    allocated record is NULL or a record of the catalog. *)
Definition cursor_ok (h : heap) : Prop :=
  (forall a, ptr h = Some a -> in_catalog a h) /\
  (forall a b, lookup a (cells h) = Some (Some b) -> in_catalog b h) /\
  (forall a, head h = Some a -> in_catalog a h).

Lemma lookup_insert (a b : addr) (h : heap) :
  lookup b (cells (insert_head a h)) =
  if Nat.eqb b a then Some (head h) else lookup b (cells h).
Proof. reflexivity. Qed.

(** As long as the list is only grown ([conf_parse_file]) and iterated,
    the iterator yields NULL or a record of the catalog. *)
Lemma insert_head_ok (a : addr) (h : heap) :
  lookup a (cells h) = None -> cursor_ok h -> cursor_ok (insert_head a h).
Proof.
  intros Hfresh (Hp & Hl & Hh). unfold cursor_ok, in_catalog in *. simpl.
  split; [|split]; intros x.
  - intros Hx. apply Hp in Hx. destruct (Nat.eqb x a); congruence.
  - intros y Hxy. destruct (Nat.eqb y a); [discriminate|].
    destruct (Nat.eqb x a).
    + injection Hxy as Hy. apply Hh in Hy. exact Hy.
    + apply Hl in Hxy. exact Hxy.
  - intros Hx. injection Hx as <-. rewrite Nat.eqb_refl. discriminate.
Qed.

Lemma iterator_ok (first : bool) (h : heap) :
  cursor_ok h ->
  (forall a, fst (conf_info_iterator first h) = Ret (Some a) -> in_catalog a h) /\
  (forall a, fst (conf_info_iterator first h) <> UseAfterFree a) /\
  cursor_ok (snd (conf_info_iterator first h)).
Proof.
  intros (Hp & Hl & Hh). unfold conf_info_iterator, cursor_ok, in_catalog in *.
  destruct first; simpl.
  - split; [intros a Ha; injection Ha as Ha; auto|].
    split; [discriminate|]. simpl. auto.
  - destruct (ptr h) as [p|] eqn:Ep; simpl.
    + assert (Hin := Hp p eq_refl).
      destruct (lookup p (cells h)) as [nxt|] eqn:En; [|contradiction]. simpl.
      split; [intros a Ha; injection Ha as ->; eauto|].
      split; [discriminate|]. split; [|split]; auto.
      intros a Ha; simpl in Ha; subst; eauto.
    + split; [discriminate|]. split; [discriminate|]. rewrite Ep. auto.
Qed.

Lemma iterator_cells (first : bool) (h : heap) :
  cells (snd (conf_info_iterator first h)) = cells h /\
  head (snd (conf_info_iterator first h)) = head h.
Proof.
  unfold conf_info_iterator. destruct first; [auto|].
  destruct (ptr h) as [p|]; [|auto]. destruct (lookup p (cells h)); auto.
Qed.

(** The program without [conf_info_cleanup]: records are inserted by
    [create_provider] (each a fresh allocation) and the iterator is called
    in any order.  Each call returns NULL or a record inserted before, and
    never reads through a freed pointer. *)
Lemma run_ok (ops : list op) (h : heap) :
  cursor_ok h -> NoDup (inserted ops) ->
  (forall a, In a (inserted ops) -> lookup a (cells h) = None) ->
  forall r, In r (run ops h) ->
  r = Ret None \/ exists a, r = Ret (Some a) /\ (in_catalog a h \/ In a (inserted ops)).
Proof.
  revert h. induction ops as [|o ops IH]; intros h Hok Hnd Hfresh r Hr; [destruct Hr|].
  destruct o as [a | first]; simpl in Hnd, Hfresh, Hr |- *.
  - inversion Hnd as [|? ? Hna Hnd']; subst.
    assert (Hok' : cursor_ok (insert_head a h))
      by (apply insert_head_ok; auto).
    assert (Hfresh' : forall b, In b (inserted ops) -> lookup b (cells (insert_head a h)) = None).
    { intros b Hb. rewrite lookup_insert.
      destruct (Nat.eqb_spec b a) as [->|]; [contradiction|]. auto. }
    destruct (IH _ Hok' Hnd' Hfresh' r Hr) as [-> | (b & -> & Hb)]; [now left|].
    right. exists b. split; [reflexivity|].
    destruct Hb as [Hb | Hb]; [|auto].
    unfold in_catalog in Hb. rewrite lookup_insert in Hb.
    destruct (Nat.eqb_spec b a) as [->|]; auto.
  - destruct (iterator_ok first h Hok) as (Hret & Hnuaf & Hok').
    destruct (iterator_cells first h) as [Hc _].
    destruct (conf_info_iterator first h) as [r0 h'] eqn:Eit. simpl in *.
    destruct Hr as [<- | Hr].
    + destruct r0 as [[a|] | a]; [|now left|].
      * right. exists a. split; [reflexivity|]. left. now apply Hret.
      * exfalso. exact (Hnuaf a eq_refl).
    + assert (Hfresh' : forall a, In a (inserted ops) -> lookup a (cells h') = None)
        by (intros a Ha; rewrite Hc; auto).
      destruct (IH h' Hok' Hnd Hfresh' r Hr) as [-> | (b & -> & Hb)]; [now left|].
      right. exists b. split; [reflexivity|].
      unfold in_catalog in Hb |- *. rewrite Hc in Hb. exact Hb.
Qed.

(** From the program start ([init]), as long as [conf_info_cleanup] is not
    called, every value the iterator returns is NULL or a record that was
    inserted; no call reads a freed record. *)
Theorem iterator_safe_without_cleanup (ops : list op) :
  NoDup (inserted ops) ->
  forall r, In r (run ops init) ->
  r = Ret None \/ exists a, r = Ret (Some a) /\ In a (inserted ops).
Proof.
  intros Hnd r Hr.
  assert (Hinit : cursor_ok init).
  { unfold cursor_ok, in_catalog. simpl. repeat split; discriminate. }
  destruct (run_ok ops init Hinit Hnd (fun _ _ => eq_refl) r Hr)
    as [-> | (a & -> & [Ha | Ha])]; [now left | | now right; eauto].
  exfalso. apply Ha. reflexivity.
Qed.

Lemma build_head (l : list addr) : head (build l) = hd_error l /\ ptr (build l) = None.
Proof. destruct l; simpl; [auto|]. split; [reflexivity|]. induction l; simpl; auto. Qed.

Lemma build_links (l pre suf : list addr) (a : addr) :
  NoDup l -> l = pre ++ a :: suf -> lookup a (cells (build l)) = Some (hd_error suf).
Proof.
  revert pre. induction l as [|x l IH]; intros pre Hnd Hl.
  - destruct pre; discriminate.
  - inversion Hnd as [|? ? Hnx Hnd']; subst.
    change (cells (build (x :: l))) with ((x, head (build l)) :: cells (build l)).
    cbn [lookup].
    destruct pre as [|y pre]; simpl in Hl; injection Hl as <- Hl.
    + rewrite Nat.eqb_refl. subst l. now rewrite (proj1 (build_head suf)).
    + destruct (Nat.eqb_spec a x) as [->|].
      * exfalso. apply Hnx. rewrite Hl. apply in_or_app. right. now left.
      * apply (IH pre Hnd' Hl).
Qed.

Lemma advance_walk (l pre suf : list addr) (a : addr) (h : heap) :
  NoDup l -> l = pre ++ a :: suf -> cells h = cells (build l) -> ptr h = Some a ->
  advance_n (S (List.length suf)) h = map (fun b => Ret (Some b)) suf ++ [Ret None].
Proof.
  revert pre a h. induction suf as [|b suf IH]; intros pre a h Hnd Hl Hc Hp.
  - cbn [advance_n]. unfold conf_info_iterator at 1. rewrite Hp, Hc.
    rewrite (build_links l pre [] a Hnd Hl). reflexivity.
  - cbn [advance_n List.length]. unfold conf_info_iterator at 1. rewrite Hp, Hc.
    rewrite (build_links l pre (b :: suf) a Hnd Hl). cbn [hd_error].
    cbv beta iota. cbn [map app]. f_equal.
    apply (IH (pre ++ [a]) b); [exact Hnd | rewrite Hl, <- app_assoc; reflexivity
                              | reflexivity | reflexivity].
Qed.

(** The loop [for (info = conf_info_iterator(1); info; info =
    conf_info_iterator(0))] over a list of distinct records, built by
    inserting at the head, visits every record once, from the head (the
    last inserted) to the tail, then gets NULL. *)
Theorem traverse_visits_all (l : list addr) :
  NoDup l ->
  traverse (List.length l) (build l) = map (fun a => Ret (Some a)) l ++ [Ret None].
Proof.
  intros Hnd. destruct l as [|a l]; [reflexivity|].
  unfold traverse. cbn [conf_info_iterator build insert_head head]. cbv beta iota.
  cbn [map app List.length]. f_equal.
  apply (advance_walk (a :: l) [] l a); reflexivity || exact Hnd.
Qed.

Lemma advance_n_null (n : nat) (h : heap) :
  ptr h = None -> advance_n n h = repeat (Ret None) n.
Proof.
  revert h. induction n as [|n IH]; intros h Hp; [reflexivity|].
  cbn [advance_n]. rewrite (advance_null h Hp). cbv beta iota.
  cbn [repeat]. f_equal. now apply IH.
Qed.

(** After [conf_info_cleanup], a loop that restarts with
    [conf_info_iterator(1)] is safe: the reset reads the empty list head,
    so the first call and every later advance return NULL. *)
Theorem traverse_after_cleanup (n : nat) (h : heap) :
  traverse n (conf_info_cleanup h) = repeat (Ret None) (S n).
Proof.
  unfold traverse. cbn [conf_info_iterator conf_info_cleanup head cells].
  cbv beta iota. cbn [repeat]. f_equal. now apply advance_n_null.
Qed.

End CatalogFacts.

(** * Claims *)

(** A configuration with one dyndns.org provider section. *)
Definition dyndns_config (period : Z) (hs al : list cstr) : config :=
  ex_config period [provider_sec "default@dyndns.org" hs al] [].

(** A configuration whose first provider uses the broken plugin. *)
Definition broken_config : config :=
  ex_config 600
    [provider_sec "default@broken.example" [str "a.example"] [];
     provider_sec "default@dyndns.org" [str "b.example"] []] [].

(** C1: the configured update period is not clamped: [validate_period]
    computes the clamped value in a local and returns 0 without storing it,
    so [ctx->normal_update_period_sec] gets the configured period even
    below [DDNS_MIN_PERIOD] (30 here) or above [DDNS_MAX_PERIOD] (864000
    here). *)
Theorem period_not_clamped :
  match ex_load (dyndns_config 1 [str "home.example.org"] []) ctx0 globals0 0,
        ex_load (dyndns_config 10000000 [str "home.example.org"] []) ctx0 globals0 0 with
  | Ok (r1, ctx1, _) _, Ok (r2, ctx2, _) _ =>
      r1 <> None /\ normal_update_period_sec ctx1 = 1%Z /\
      r2 <> None /\ normal_update_period_sec ctx2 = 10000000%Z
  | _, _ => False
  end.
Proof. vm_compute. repeat split; discriminate || reflexivity. Qed.


Definition ex_built_from :=
  built_from 32 32 2 32 32 16 16 16 2 ex_plugin_find ex_generic ex_alloc.


(** C3: with a 32-byte [alias[0].name], a 32-character hostname passes
    validation and is stored with its last character cut by [strlcpy],
    while a 33-character one is refused. *)
Theorem hostname_at_capacity_truncated :
  match ex_load (dyndns_config 600 [letters 32] []) ctx0 globals0 0,
        ex_load (dyndns_config 600 [letters 33] []) ctx0 globals0 0 with
  | Ok (r, _, g) _, Ok (r', _, _) _ =>
      r <> None /\ map alias (info_list g) = [[letters 31]] /\ r' = None
  | _, _ => False
  end.
Proof. vm_compute. repeat split; discriminate || reflexivity. Qed.

(** C4: with 16-byte [creds.username] and [server_response[i]], a
    16-character username passes the [strlen(str) <= sizeof] guard and is
    stored truncated, and a 20-character response string, which has no
    guard, is stored truncated. *)
Theorem credentials_and_responses_truncated :
  let c := ex_config 600 []
             [custom_sec (Some (letters 16)) [str "home.example.org"] [letters 20]] in
  match ex_load c ctx0 globals0 0 with
  | Ok (r, _, g) _ =>
      r <> None /\
      map creds_username (info_list g) = [letters 15] /\
      map server_response (info_list g) = [[letters 15]]
  | Undefined => False
  end.
Proof. vm_compute. repeat split; discriminate || reflexivity. Qed.

(** C5: three configured response strings and two slots: the record does
    not hold the configured values. *)
Theorem custom_responses_capped :
  let c := ex_config 600 []
             [custom_sec None [str "home.example.org"] [str "ok"; str "good"; str "done"]] in
  match ex_load c ctx0 globals0 0 with
  | Ok (r, _, g) _ => r <> None /\ map server_response (info_list g) = [[str "ok"; str "good"]]
  | Undefined => False
  end.
Proof. vm_compute. repeat split; discriminate || reflexivity. Qed.

(** C5 (amended), witness. *)
Lemma custom_response_patterns_witness :
  match ex_set_opts (custom_sec None [str "home.example.org"] []) true 0 with
  | Ok (Some info) _ => server_response info = firstn 2 ex_generic
  | _ => False
  end.
Proof.
  destruct (ex_set_opts (custom_sec None [str "home.example.org"] []) true 0)
    as [[info|] n'|] eqn:E; try (vm_compute in E; discriminate).
  exact (proj1 (custom_response_patterns 32 32 2 32 32 16 16 16 2 ex_plugin_find
           ex_generic ex_alloc (custom_sec None [str "home.example.org"] []) info 0 n' E)
           eq_refl ltac:(repeat constructor; vm_compute; lia)).
Defined.

(** C6, witness: ["example.org:8080"] with a 32-byte name buffer. *)
Lemma getserver_port_witness :
  getserver 32 true (str "example.org:8080") name_zero = (0%Z, mk_name (str "example.org") 8080) /\
  (is_number (str "8080") ->
   port (mk_name (str "example.org") 8080) = atonum (str "8080") /\ (0 <= atonum (str "8080"))%Z).
Proof.
  split; [vm_compute; reflexivity|].
  refine (proj1 (proj2 (getserver_port 32 true (str "example.org:8080") name_zero
                          (mk_name (str "example.org") 8080) _)
                 (str "example.org") (str "8080") _ _)).
  - vm_compute. reflexivity.
  - reflexivity.
  - reflexivity.
Defined.

(** The three endpoint examples of the spec. *)
Example getserver_examples :
  port (snd (getserver 32 true (str "example.org") name_zero)) = HTTP_DEFAULT_PORT /\
  port (snd (getserver 32 true (str "example.org:8080") name_zero)) = 8080%Z /\
  port (snd (getserver 32 true (str "example.org:notanumber") name_zero)) = HTTP_DEFAULT_PORT.
Proof. vm_compute. repeat split. Qed.

(** C7: a host of 16 characters fits a 16-byte name buffer, yet
    ["<host>:80"] is refused because the length test is on the whole
    server string. *)
Theorem getserver_port_suffix_counts :
  strlen (letters 16) <= 16 /\
  getserver 16 true (letters 16 ++ str ":80") name_zero = (1%Z, name_zero).
Proof. split; [vm_compute; lia | vm_compute; reflexivity]. Qed.

(** C8: a section with only [alias] set, its alias exactly as long as
    [alias[0].name] (32 here): the migration moves it to [hostname], but
    the record keeps it without its last character. *)
Theorem alias_migration_truncates :
  let s := provider_sec "default@dyndns.org" [] [letters 32] in
  sec_hostname (snd (deprecate_alias s)) = [letters 32] /\
  match ex_load (ex_config 600 [s] []) ctx0 globals0 0 with
  | Ok (r, _, g) _ => r <> None /\ map alias (info_list g) = [[letters 31]]
  | Undefined => False
  end.
Proof. vm_compute. repeat split; discriminate || reflexivity. Qed.

(** C9, witness: a server string longer than the name buffer. *)
Lemma getserver_failure_leaves_name_witness :
  fst (getserver 8 true (str "far.too.long.example") (mk_name (str "old") 443)) <> 0%Z /\
  snd (getserver 8 true (str "far.too.long.example") (mk_name (str "old") 443))
    = mk_name (str "old") 443.
Proof.
  split; [vm_compute; discriminate|].
  apply (getserver_failure_leaves_name 8 true (str "far.too.long.example")
           (mk_name (str "old") 443)).
  vm_compute. discriminate.
Defined.

(** C10: [conf_info_cleanup] frees the records but leaves the static
    cursor: after a reset onto record 1 and a cleanup, advancing reads
    [LIST_NEXT] through the freed record 1 instead of returning NULL. *)
Theorem iterator_after_cleanup :
  let h1 := Catalog.insert_head 1 Catalog.init in
  let '(r1, h2) := Catalog.conf_info_iterator true h1 in
  let h3 := Catalog.conf_info_cleanup h2 in
  r1 = Catalog.Ret (Some 1) /\
  ~ Catalog.in_catalog 1 h3 /\
  fst (Catalog.conf_info_iterator false h3) = Catalog.UseAfterFree 1.
Proof.
  simpl. split; [reflexivity|]. split; [|reflexivity].
  unfold Catalog.in_catalog. simpl. auto.
Qed.

(** * Further properties: witnesses *)

Definition ex_host : cstr := str "home.example.org".

(** A provider section whose deprecated [alias] list is migrated. *)
Definition alias_sec : section := provider_sec "default@dyndns.org" [] [ex_host].

Lemma validate_common_spec_witness :
  fst (validate_common 32 ex_plugin_find alias_sec (str "default@dyndns.org") false) = 0%Z.
Proof.
  apply (proj2 (validate_common_spec 32 ex_plugin_find alias_sec
                  (str "default@dyndns.org") false)).
  split; [vm_compute; discriminate|].
  split; [intros _; split; discriminate|].
  right. split; [discriminate|]. split; [reflexivity|].
  split; [discriminate|]. constructor; [vm_compute; lia | constructor].
Defined.

(** A later provider section naming no known plugin and no hostname is
    accepted behind a valid first one. *)
Lemma accept_provider_first_only_witness :
  accept_sections (validate_provider 32 ex_plugin_find) []
    [alias_sec; provider_sec "nonexistent" [] []] =
  Some [provider_sec "default@dyndns.org" [ex_host] []; provider_sec "nonexistent" [] []].
Proof.
  exact (accept_provider_first_only 32 ex_plugin_find alias_sec
           (provider_sec "default@dyndns.org" [ex_host] []) 0
           [provider_sec "nonexistent" [] []] ltac:(vm_compute; reflexivity)).
Defined.

Definition bare_sec : section :=
  mk_section None None None [] [] false false false None None [] None None.

Lemma accept_custom_first_only_witness :
  accept_sections (validate_custom 32 ex_plugin_find) []
    [custom_sec None [ex_host] []; bare_sec] =
  Some [custom_sec None [ex_host] []; bare_sec].
Proof.
  exact (accept_custom_first_only 32 ex_plugin_find (custom_sec None [ex_host] [])
           (custom_sec None [ex_host] []) 0 [bare_sec] ltac:(vm_compute; reflexivity)).
Defined.

Lemma deprecate_alias_migrates_witness :
  fst (deprecate_alias alias_sec) = 0%Z /\
  sec_hostname (snd (deprecate_alias alias_sec)) = sec_alias alias_sec /\
  sec_alias (snd (deprecate_alias alias_sec)) = [].
Proof. apply deprecate_alias_migrates; [discriminate | reflexivity]. Defined.

Lemma getserver_host_witness :
  name (snd (getserver 32 true (str "ddns.example:8080") name_zero)) = str "ddns.example".
Proof.
  refine (proj1 (getserver_host 32 true (str "ddns.example:8080") name_zero
                   (snd (getserver 32 true (str "ddns.example:8080") name_zero)) _)
            (str "ddns.example") (str "8080") _ _);
    vm_compute; reflexivity.
Defined.

(** Every allocation succeeds except attempt [k]. *)
Definition ex_alloc_fails (k n : nat) : bool := negb (Nat.eqb n k).

(** The second [strdup] of [getserver] (the update server name) fails. *)
Lemma set_provider_opts_fails_witness :
  exists n', set_provider_opts 32 32 2 32 32 16 16 16 2 ex_plugin_find ex_generic
               (ex_alloc_fails 1) (provider_sec "default@dyndns.org" [ex_host] []) false 0
             = Ok None n'.
Proof.
  apply (proj2 (set_provider_opts_fails 32 32 2 32 32 16 16 16 2 ex_plugin_find ex_generic
                  (ex_alloc_fails 1) (provider_sec "default@dyndns.org" [ex_host] []) false 0)).
  intros t sys Ht Hs. injection Ht as <-. vm_compute in Hs. injection Hs as <-.
  right; right; right; right; left. reflexivity.
Defined.

(** Three hostnames, two alias slots. *)
Definition three_hosts_sec : section :=
  provider_sec "default@dyndns.org" [str "a.example"; str "b.example"; str "c.example"] [].

Lemma set_provider_opts_overflow_witness :
  ex_cfg_parse (ex_config 600 [three_hosts_sec] []) <> None /\
  ex_set_opts three_hosts_sec false 0 = Undefined.
Proof.
  split; [vm_compute; discriminate|].
  apply (proj2 (set_provider_opts_overflow 32 32 2 32 32 16 16 16 2 ex_plugin_find ex_generic
                  ex_alloc three_hosts_sec false 0)).
  exists (str "default@dyndns.org"), ex_dyndns.
  vm_compute. repeat split; (reflexivity || lia).
Defined.

Lemma set_provider_opts_record_witness :
  match ex_set_opts (custom_sec None [ex_host; str "b.example"] []) true 0 with
  | Ok (Some info) _ => alias info = map (strlcpy 32) [ex_host; str "b.example"]
  | _ => False
  end.
Proof.
  destruct (ex_set_opts (custom_sec None [ex_host; str "b.example"] []) true 0)
    as [[info|] n'|] eqn:E; try (vm_compute in E; discriminate).
  exact (proj1 (proj2 (proj2 (set_provider_opts_record 32 32 2 32 32 16 16 16 2
                                ex_plugin_find ex_generic ex_alloc
                                (custom_sec None [ex_host; str "b.example"] [])
                                true 0 n' info E)))).
Defined.

(** A configuration with [iface = "wlan0"], loaded with [--iface=eth0]
    and [--once]. *)
Definition iface_config : config :=
  mk_config false (str "/var/cache/inadyn") 600 0 604800 (Some (str "wlan0"))
    [provider_sec "default@dyndns.org" [ex_host] []] [].

Definition cmdline_globals : globals := mk_globals true (Some (str "eth0")) None [].

Lemma load_globals_witness :
  match ex_load iface_config ctx0 cmdline_globals 0 with
  | Ok (_, _, g') _ => iface g' = Some (str "eth0")
  | Undefined => False
  end.
Proof.
  destruct (ex_load iface_config ctx0 cmdline_globals 0) as [[[r ctx'] g'] n'|] eqn:E;
    [|vm_compute in E; discriminate].
  exact (proj1 (load_globals 32 32 2 32 32 16 16 16 2 30 864000 60 ex_plugin_find ex_generic
                  ex_alloc iface_config iface_config ctx0 cmdline_globals 0 r ctx' g' n'
                  eq_refl ltac:(vm_compute; reflexivity) E)).
Defined.

(** A period of [2^32 + 600]: the [long] setting narrowed to the [int]
    field gives 600. *)
Definition wrap_config : config :=
  mk_config false (str "/var/cache/inadyn") 4294967896 7 604800 None
    [provider_sec "default@dyndns.org" [ex_host] []] [].

Lemma load_ctx_witness :
  match ex_load wrap_config ctx0 globals0 0 with
  | Ok (_, ctx', _) _ => ctx' = mk_ctx 600 60 604800 7 false
  | Undefined => False
  end.
Proof.
  destruct (ex_load wrap_config ctx0 globals0 0) as [[[r ctx'] g'] n'|] eqn:E;
    [|vm_compute in E; discriminate].
  rewrite (load_ctx 32 32 2 32 32 16 16 16 2 30 864000 60 ex_plugin_find ex_generic
             ex_alloc wrap_config wrap_config ctx0 globals0 0 r ctx' g' n'
             eq_refl ltac:(vm_compute; reflexivity) E).
  vm_compute. reflexivity.
Defined.

Definition ex_ops : list Catalog.op :=
  [Catalog.OpInsert 1; Catalog.OpIter true; Catalog.OpInsert 2; Catalog.OpIter false;
   Catalog.OpIter true; Catalog.OpIter false; Catalog.OpIter false; Catalog.OpIter false].

Lemma iterator_safe_without_cleanup_witness :
  Forall (fun r => r = Catalog.Ret None \/
                   exists a, r = Catalog.Ret (Some a) /\ In a (Catalog.inserted ex_ops))
    (Catalog.run ex_ops Catalog.init).
Proof.
  apply Forall_forall.
  apply CatalogFacts.iterator_safe_without_cleanup.
  vm_compute. constructor; [intros [H | []]; discriminate | constructor; [intros [] | constructor]].
Defined.

Lemma traverse_visits_all_witness :
  Catalog.traverse 3 (Catalog.build [3; 2; 1]) =
  [Catalog.Ret (Some 3); Catalog.Ret (Some 2); Catalog.Ret (Some 1); Catalog.Ret None].
Proof.
  exact (CatalogFacts.traverse_visits_all [3; 2; 1]
           ltac:(constructor; [intros [H | [H | []]]; discriminate |
                 constructor; [intros [H | []]; discriminate |
                 constructor; [intros [] | constructor]]])).
Defined.
